(** * Movie recommendation service: a shallow embedding of [app/main.py]

    The module-level loader, [recommend], [get_recommendation],
    [health_check] and [search_movies] are embedded as pure functions over
    an explicit record of the three module globals ([vectorizer], [new_df],
    [similarity]).  Python exceptions are values of an error monad, the
    [try]/[except Exception] blocks are its handler.

    Similarity scores are finite floating-point numbers; the program only
    compares them, and on finite floats the comparison is the one of the
    rationals they denote, so a score is a [Q].  A string is a sequence
    of 8-bit characters; the letter-case folding of the search is
    embedded for ASCII letters, and the statements that depend on it take
    ASCII names and queries. *)

From Stdlib Require Import List String Ascii Bool Arith ZArith QArith Lia.
From Stdlib Require Import Sorted Permutation.
From Stdlib.Strings Require Byte.
Import ListNotations.

Local Close Scope Q_scope.
Local Open Scope string_scope.
Local Open Scope list_scope.

(** ** Exceptions and the error monad *)

Module Py.

Inductive exn : Type :=
| FileNotFoundError                (* gzip.open on a missing path *)
| BadGzipFile                      (* content that is not a gzip stream *)
| UnpicklingError                  (* content joblib cannot decode *)
| KeyError (key : string)          (* missing dict key or missing column *)
| ValueError                       (* DataFrame columns of unequal length *)
| TypeError                        (* subscripting None *)
| IndexError                       (* position out of bounds *)
| ReError.                         (* re.error: pattern does not compile *)

Inductive result (A : Type) : Type :=
| Ok (a : A)
| Raise (e : exn).

Arguments Ok {A} a.
Arguments Raise {A} e.

Definition bind {A B} (m : result A) (f : A -> result B) : result B :=
  match m with
  | Ok a => f a
  | Raise e => Raise e
  end.

(** [try: body except Exception as e: handler e].  Every constructor of
    [exn] is a subclass of [Exception], so the handler sees all of them. *)
Definition try_except {A} (body : result A) (handler : exn -> A) : A :=
  match body with
  | Ok a => a
  | Raise e => handler e
  end.

(** A list comprehension whose element expression may raise. *)
Fixpoint comprehension {A B} (f : A -> result B) (l : list A) : result (list B) :=
  match l with
  | [] => Ok []
  | x :: l' => bind (f x) (fun y => bind (comprehension f l') (fun ys => Ok (y :: ys)))
  end.

(** [l[a:b]] for non-negative [a] and [b]. *)
Definition slice {A} (a b : nat) (l : list A) : list A :=
  firstn (b - a) (skipn a l).

(** [l[:limit]] for an arbitrary integer [limit]: a negative bound counts
    from the end of the list. *)
Definition slice_to {A} (limit : Z) (l : list A) : list A :=
  if (0 <=? limit)%Z then firstn (Z.to_nat limit) l
  else firstn (List.length l - Z.to_nat (- limit)) l.

(** [list(enumerate(l))], counting from [start]. *)
Fixpoint enumerate_from {A} (start : nat) (l : list A) : list (nat * A) :=
  match l with
  | [] => []
  | x :: l' => (start, x) :: enumerate_from (S start) l'
  end.

Definition enumerate {A} (l : list A) : list (nat * A) := enumerate_from 0 l.

End Py.

Import Py.

Declare Scope py_scope.
Delimit Scope py_scope with py.
Notation "x <- m ;; f" := (bind m (fun x => f))
  (at level 61, m at next level, right associativity) : py_scope.
Local Open Scope py_scope.

(** ** The sort of [recommend]

    [sorted(pairs, reverse=True, key=lambda x: x[1])] is a stable sort:
    the result is in descending key order and elements with equal keys
    keep their input order.  The stable descending insertion sort below
    computes that list. *)

Definition Score : Type := Q.

Fixpoint insert_desc (x : nat * Score) (l : list (nat * Score)) : list (nat * Score) :=
  match l with
  | [] => [x]
  | y :: l' =>
      if Qle_bool (snd y) (snd x) then x :: y :: l'
      else y :: insert_desc x l'
  end.

Fixpoint sorted_desc (l : list (nat * Score)) : list (nat * Score) :=
  match l with
  | [] => []
  | x :: l' => insert_desc x (sorted_desc l')
  end.

(** ** The data frame and the module globals *)

(** A frame is its columns in order, each a label and the cells of the
    column; all columns of a frame built by [pd_DataFrame] have one
    length.  The index is the default one, the positions [0 .. len-1]. *)
Definition DataFrame : Type := list (string * list string).

Definition Matrix : Type := list (list Score).

Inductive Vectorizer : Type := OpaqueVectorizer (id : nat).

(** [len(df)]: the number of rows. *)
Definition df_len (df : DataFrame) : nat :=
  match df with
  | [] => 0
  | (_, cells) :: _ => List.length cells
  end.

(** [df.empty]: no column or no row. *)
Definition df_empty (df : DataFrame) : bool := (df_len df =? 0)%nat.

(** [df[label]] *)
Fixpoint df_getitem (df : DataFrame) (label : string) : result (list string) :=
  match df with
  | [] => Raise (KeyError label)
  | (l, cells) :: df' => if String.eqb l label then Ok cells else df_getitem df' label
  end.

(** [pd.DataFrame()] *)
Definition empty_DataFrame : DataFrame := [].

(** [pd.DataFrame(d)] for a dict [d] of columns. *)
Definition pd_DataFrame (d : list (string * list string)) : result DataFrame :=
  match d with
  | [] => Ok []
  | (_, c) :: d' =>
      if forallb (fun col => (List.length (snd col) =? List.length c)%nat) d' then Ok d
      else Raise ValueError
  end.

(** [pd.DataFrame(v)] for the value [v] of a dict key: [None] gives the
    empty frame of [pd.DataFrame()]. *)
Definition pd_DataFrame_value (v : option (list (string * list string)))
  : result DataFrame :=
  match v with
  | None => Ok []
  | Some d => pd_DataFrame d
  end.

Record Globals : Type := mkGlobals {
  vectorizer : option Vectorizer;
  new_df : DataFrame;
  similarity : option Matrix
}.

(** ** Loading the artifact (module level, lines 34-46) *)

(** The decoded artifact is a dict.  Each of its three keys may be
    absent (the outer [None]); a key that is present holds a value of the
    type of the artifact format, or Python's [None] (the inner [None]). *)
Record ArtifactDict : Type := mkArtifact {
  art_vectorizer : option (option Vectorizer);
  art_dataframe : option (option (list (string * list string)));
  art_similarity_matrix : option (option Matrix)
}.

(** What the loader reads: the file system and the two decoders, which
    are library code outside the repository. *)
Record World : Type := mkWorld {
  file_at : string -> option (list Byte.byte);
  gunzip : list Byte.byte -> option (list Byte.byte);
  joblib_decode : list Byte.byte -> option ArtifactDict
}.

Definition gzip_open (w : World) (path : string) : result (list Byte.byte) :=
  match file_at w path with
  | Some bytes => Ok bytes
  | None => Raise FileNotFoundError
  end.

Definition joblib_load (w : World) (compressed : list Byte.byte) : result ArtifactDict :=
  match gunzip w compressed with
  | None => Raise BadGzipFile
  | Some raw =>
      match joblib_decode w raw with
      | None => Raise UnpicklingError
      | Some data => Ok data
      end
  end.

(** [data[key]] *)
Definition dict_getitem {A} (field : option A) (key : string) : result A :=
  match field with
  | Some v => Ok v
  | None => Raise (KeyError key)
  end.

(** A printed diagnostic: a literal text, or a text followed by [str(e)]. *)
Inductive Message : Type :=
| Text (s : string)
| TextWithExn (prefix : string) (e : exn).

(** The body of the [try]. *)
Definition load_body (w : World) (model_path : string) : result (Globals * Message) :=
  f <- gzip_open w model_path ;;
  data <- joblib_load w f ;;
  v <- dict_getitem (art_vectorizer data) "vectorizer" ;;
  d <- dict_getitem (art_dataframe data) "dataframe" ;;
  df <- pd_DataFrame_value d ;;
  s <- dict_getitem (art_similarity_matrix data) "similarity_matrix" ;;
  Ok (mkGlobals v df s, Text "Model loaded successfully!").

(** The globals the [except] branch installs. *)
Definition not_loaded : Globals := mkGlobals None empty_DataFrame None.

Definition load (w : World) (model_path : string) : Globals * Message :=
  try_except (load_body w model_path)
    (fun e => (not_loaded, TextWithExn "Error loading model: " e)).

(** ** [recommend] (lines 61-69) *)

(** [new_df[new_df['title'] == movie].index[0]] *)
Fixpoint first_index_from (start : nat) (movie : string) (titles : list string) : result nat :=
  match titles with
  | [] => Raise IndexError
  | t :: titles' =>
      if String.eqb t movie then Ok start
      else first_index_from (S start) movie titles'
  end.

Definition first_index (movie : string) (titles : list string) : result nat :=
  first_index_from 0 movie titles.

(** [similarity[movie_index]] *)
Definition similarity_getitem (sim : option Matrix) (i : nat) : result (list Score) :=
  match sim with
  | None => Raise TypeError
  | Some m =>
      match nth_error m i with
      | Some row => Ok row
      | None => Raise IndexError
      end
  end.

(** [new_df.iloc[i].title] *)
Definition iloc_title (titles : list string) (i : nat) : result string :=
  match nth_error titles i with
  | Some t => Ok t
  | None => Raise IndexError
  end.

(** [sorted(list(enumerate(distance)), reverse=True, key=lambda x: x[1])[1:6]] *)
Definition movies_list (distance : list Score) : list (nat * Score) :=
  slice 1 6 (sorted_desc (enumerate distance)).

Definition recommend (g : Globals) (movie : string) : result (list string) :=
  titles <- df_getitem (new_df g) "title" ;;
  if negb (existsb (String.eqb movie) titles) then Ok []
  else
    movie_index <- first_index movie titles ;;
    distance <- similarity_getitem (similarity g) movie_index ;;
    comprehension (fun i => iloc_title titles (fst i)) (movies_list distance).

(** ** [get_recommendation] (lines 72-106) *)

Inductive Response : Type :=
| ErrorResponse (message : Message)
| SuccessResponse (recommended_movies : list string) (input_movie : string).

Definition is_None {A} (o : option A) : bool :=
  match o with None => true | Some _ => false end.

Definition model_not_loaded : Response :=
  ErrorResponse (Text "Model not loaded properly. Please check the server.").

Definition movie_not_found (movie : string) : Response :=
  ErrorResponse (Text ("Movie '" ++ movie ++ "' not found in database.")%string).

Definition get_recommendation (g : Globals) (movie : string) : Response :=
  if df_empty (new_df g) || is_None (similarity g) then model_not_loaded
  else
    try_except
      (movies <- recommend g movie ;;
       Ok (match movies with
           | [] => movie_not_found movie
           | _ => SuccessResponse movies movie
           end))
      (fun e => ErrorResponse (TextWithExn "Recommendation failed: " e)).

(** ** [health_check] (lines 113-122) *)

Record HealthResponse : Type := mkHealth {
  status : string;
  message : string;
  model_status : string;
  movies_count : nat
}.

Definition health_check (g : Globals) : HealthResponse :=
  mkHealth "healthy" "API is operational"
    (if negb (df_empty (new_df g)) && negb (is_None (similarity g))
     then "loaded" else "not loaded")
    (if negb (df_empty (new_df g)) then df_len (new_df g) else 0).

(** ** [search_movies] (lines 148-171)

    [Series.str.contains(query, case=False, na=False)] compiles [query]
    as a regular expression with [re.IGNORECASE] and keeps the names in
    which [re.search] finds a match.  The fragment of the pattern syntax
    embedded here is: ordinary characters, and the one-character class
    escapes [\d \D \s \S \w \W].  Every other pattern is handed to
    [re_other], the rest of the regular-expression compiler, which is
    library code. *)

Module Re.

Definition code_in (lo hi : nat) (c : ascii) : bool :=
  let n := nat_of_ascii c in (lo <=? n)%nat && (n <=? hi)%nat.

Definition is_digit (c : ascii) : bool := code_in 48 57 c.
Definition is_upper (c : ascii) : bool := code_in 65 90 c.
Definition is_lower (c : ascii) : bool := code_in 97 122 c.

(** Space, tab to carriage return, and the four separators 28..31. *)
Definition is_space (c : ascii) : bool :=
  code_in 32 32 c || code_in 9 13 c || code_in 28 31 c.

Definition is_word (c : ascii) : bool :=
  is_digit c || is_upper c || is_lower c || code_in 95 95 c.

(** The case folding of [re.IGNORECASE] on ASCII characters; a character
    outside ASCII is left as it is. *)
Definition lower (c : ascii) : ascii :=
  if is_upper c then ascii_of_nat (nat_of_ascii c + 32) else c.

(** The characters with a meaning of their own in a pattern. *)
Definition is_meta (c : ascii) : bool :=
  existsb (Ascii.eqb c)
    ["."; "^"; "$"; "*"; "+"; "?"; "{"; "}"; "["; "]"; "\"; "|"; "("; ")"]%char.

Inductive cls : Type := Digit | Space | Word.

Inductive atom : Type :=
| Lit (c : ascii)
| Member (k : cls)
| NonMember (k : cls).

Definition in_cls (k : cls) (c : ascii) : bool :=
  match k with
  | Digit => is_digit c
  | Space => is_space c
  | Word => is_word c
  end.

Definition escape (e : ascii) : option atom :=
  if Ascii.eqb e "d" then Some (Member Digit)
  else if Ascii.eqb e "D" then Some (NonMember Digit)
  else if Ascii.eqb e "s" then Some (Member Space)
  else if Ascii.eqb e "S" then Some (NonMember Space)
  else if Ascii.eqb e "w" then Some (Member Word)
  else if Ascii.eqb e "W" then Some (NonMember Word)
  else None.

Fixpoint parse (pat : string) : option (list atom) :=
  match pat with
  | EmptyString => Some []
  | String c rest =>
      if Ascii.eqb c "\" then
        match rest with
        | String e rest' =>
            match escape e with
            | Some a => option_map (cons a) (parse rest')
            | None => None
            end
        | EmptyString => None
        end
      else if is_meta c then None
      else option_map (cons (Lit c)) (parse rest)
  end.

(** One pattern atom against one character, ignoring case. *)
Definition atom_matches (a : atom) (d : ascii) : bool :=
  match a with
  | Lit c => Ascii.eqb (lower c) (lower d)
  | Member k => in_cls k d
  | NonMember k => negb (in_cls k d)
  end.

(** [re.match]: the atoms match a prefix of [s]. *)
Fixpoint match_here (atoms : list atom) (s : string) : bool :=
  match atoms, s with
  | [], _ => true
  | _ :: _, EmptyString => false
  | a :: atoms', String d s' => atom_matches a d && match_here atoms' s'
  end.

(** [re.search]: the atoms match at some position of [s]. *)
Fixpoint search (atoms : list atom) (s : string) : bool :=
  match_here atoms s ||
  match s with
  | EmptyString => false
  | String _ s' => search atoms s'
  end.

End Re.

Inductive SearchResponse : Type :=
| SearchError (message : Message)
| SearchSuccess (query : string) (movies : list string) (count : nat).

Section Search.

(** [re.compile] outside the embedded fragment: a matcher, or [re.error]. *)
Variable re_other : string -> result (string -> bool).

(** [re.compile(pat, re.IGNORECASE).search] as a predicate on names. *)
Definition re_compile (pat : string) : result (string -> bool) :=
  match Re.parse pat with
  | Some atoms => Ok (Re.search atoms)
  | None => re_other pat
  end.

Definition search_movies (g : Globals) (query : string) (limit : Z) : SearchResponse :=
  if df_empty (new_df g) then SearchError (Text "Movie database not loaded")
  else
    try_except
      (titles <- df_getitem (new_df g) "title" ;;
       contains <- re_compile query ;;
       let matching_movies := slice_to limit (filter contains titles) in
       Ok (SearchSuccess query matching_movies (List.length matching_movies)))
      (fun e => SearchError (TextWithExn "Search failed: " e)).

End Search.

(** ** [get_available_movies] (lines 125-145) *)

Inductive MoviesResponse : Type :=
| MoviesError (message : Message)
| MoviesSuccess (movies : list string) (total_movies : nat).

Definition get_available_movies (g : Globals) (limit : Z) : MoviesResponse :=
  try_except
    (if df_empty (new_df g) then Ok (MoviesError (Text "Movie database not loaded"))
     else
       titles <- df_getitem (new_df g) "title" ;;
       Ok (MoviesSuccess (slice_to limit titles) (df_len (new_df g))))
    (fun e => MoviesError (TextWithExn "Failed to get movies: " e)).

(** ** The title typed into the page ([streamlit_app.py], line 157) *)

(** [s.lstrip()] *)
Fixpoint lstrip (s : string) : string :=
  match s with
  | EmptyString => EmptyString
  | String c rest => if Re.is_space c then lstrip rest else s
  end.

(** [s.rstrip()] *)
Fixpoint rstrip (s : string) : string :=
  match s with
  | EmptyString => EmptyString
  | String c rest =>
      match rstrip rest with
      | EmptyString => if Re.is_space c then EmptyString else String c EmptyString
      | kept => String c kept
      end
  end.

(** [s.strip()] *)
Definition strip (s : string) : string := rstrip (lstrip s).

(** [manual_movie.strip() if manual_movie.strip() else selected_movie] *)
Definition movie_to_recommend (manual_movie selected_movie : string) : string :=
  match strip manual_movie with
  | EmptyString => selected_movie
  | typed => typed
  end.

(** ** The dicts the endpoints return, as JSON *)

(** A JSON value; [JNull] is Python's [None].  The keys of a [JDict] are
    pairwise distinct. *)
#[local] Unset Elimination Schemes.
Inductive Json : Type :=
| JNull
| JInt (n : Z)
| JStr (s : string)
| JList (items : list Json)
| JDict (fields : list (string * Json)).
#[local] Set Elimination Schemes.

Section Wire.

(** [str(e)], the text of an exception: library code. *)
Variable str_of_exn : exn -> string.

Definition json_of_message (m : Message) : Json :=
  match m with
  | Text s => JStr s
  | TextWithExn prefix e => JStr (prefix ++ str_of_exn e)%string
  end.

Definition json_of_names (names : list string) : Json := JList (map JStr names).

(** Lines 82-85, 91-94, 96-100 and 103-106. *)
Definition json_of_Response (r : Response) : Json :=
  match r with
  | ErrorResponse m => JDict [("status", JStr "error"); ("message", json_of_message m)]
  | SuccessResponse movies input =>
      JDict [("status", JStr "success");
             ("recommended_movies", json_of_names movies);
             ("input_movie", JStr input)]
  end.

(** Lines 117-122. *)
Definition json_of_HealthResponse (h : HealthResponse) : Json :=
  JDict [("status", JStr (status h));
         ("message", JStr (message h));
         ("model_status", JStr (model_status h));
         ("movies_count", JInt (Z.of_nat (movies_count h)))].

(** Lines 130-133, 136-140 and 142-145. *)
Definition json_of_MoviesResponse (r : MoviesResponse) : Json :=
  match r with
  | MoviesError m => JDict [("status", JStr "error"); ("message", json_of_message m)]
  | MoviesSuccess movies total =>
      JDict [("status", JStr "success");
             ("movies", json_of_names movies);
             ("total_movies", JInt (Z.of_nat total))]
  end.

(** Lines 153-156, 161-166 and 168-171. *)
Definition json_of_SearchResponse (r : SearchResponse) : Json :=
  match r with
  | SearchError m => JDict [("status", JStr "error"); ("message", json_of_message m)]
  | SearchSuccess query movies count =>
      JDict [("status", JStr "success");
             ("query", JStr query);
             ("movies", json_of_names movies);
             ("count", JInt (Z.of_nat count))]
  end.

End Wire.

(** ** The client of the page ([streamlit_app.py], lines 74-118) *)

Module StreamlitApp.

(** A call of [requests] returns, or raises an exception of text [text]. *)
Inductive outcome (A : Type) : Type :=
| Done (a : A)
| Raised (text : string).

Arguments Done {A} a.
Arguments Raised {A} text.

(** A response: its status code, and what [response.json()] gives. *)
Record HttpResponse : Type := mkHttpResponse {
  status_code : nat;
  json : outcome Json
}.

(** [requests.get(url, params=...)] and [requests.post(url, json=...)]. *)
Record Requests : Type := mkRequests {
  get : string -> list (string * Json) -> outcome HttpResponse;
  post : string -> Json -> outcome HttpResponse
}.

Definition API_URL : string := "http://localhost:8000".

Fixpoint assoc (fields : list (string * Json)) (key : string) : option Json :=
  match fields with
  | [] => None
  | (k, v) :: fields' => if String.eqb k key then Some v else assoc fields' key
  end.

(** [data.get(key, default)]; [None] when [data] has no [get]. *)
Definition py_get (data : Json) (key : string) (default : Json) : option Json :=
  match data with
  | JDict fields =>
      Some (match assoc fields key with Some v => v | None => default end)
  | _ => None
  end.

(** [v == s] for a string literal [s]. *)
Definition is_str (v : Json) (s : string) : bool :=
  match v with
  | JStr s' => String.eqb s' s
  | _ => false
  end.

(** The pair [(api_healthy, health_data)]. *)
Definition check_api_health (rq : Requests) : bool * Json :=
  match get rq (API_URL ++ "/health") [] with
  | Done response =>
      if (status_code response =? 200)%nat then
        match json response with
        | Done data => (true, data)
        | Raised _ => (false, JNull)
        end
      else (false, JNull)
  | Raised _ => (false, JNull)
  end.

(** [data.get("movies", []) if data.get("status") == "success" else []] *)
Definition movies_of (data : Json) : Json :=
  match py_get data "status" JNull, py_get data "movies" (JList []) with
  | Some st, Some movies => if is_str st "success" then movies else JList []
  | _, _ => JList []
  end.

Definition movies_of_response (r : outcome HttpResponse) : Json :=
  match r with
  | Done response =>
      if (status_code response =? 200)%nat then
        match json response with
        | Done data => movies_of data
        | Raised _ => JList []
        end
      else JList []
  | Raised _ => JList []
  end.

Definition get_available_movies (rq : Requests) (limit : Z) : Json :=
  movies_of_response (get rq (API_URL ++ "/movies") [("limit", JInt limit)]).

Definition search_movies (rq : Requests) (query : string) (limit : Z) : Json :=
  movies_of_response
    (get rq (API_URL ++ "/search") [("query", JStr query); ("limit", JInt limit)]).

Definition get_recommendations (rq : Requests) (movie_title : string) : Json :=
  match post rq (API_URL ++ "/recommend") (JDict [("movie", JStr movie_title)]) with
  | Done response =>
      if (status_code response =? 200)%nat then
        match json response with
        | Done data => data
        | Raised text =>
            JDict [("status", JStr "error");
                   ("message", JStr ("Connection error: " ++ text)%string)]
        end
      else JDict [("status", JStr "error"); ("message", JStr "API request failed")]
  | Raised text =>
      JDict [("status", JStr "error");
             ("message", JStr ("Connection error: " ++ text)%string)]
  end.

(** What the page shows for a result (lines 169-181): the list under
    [result["recommended_movies"]] when [result["status"]] is
    ["success"], the text under [result['message']] otherwise; a
    subscript that fails is not caught. *)
Inductive PageOutput : Type :=
| Recommendations (recommendations : Json)
| ErrorMessage (message : Json)
| Uncaught.

Definition subscript (result : Json) (key : string) : option Json :=
  match result with
  | JDict fields => assoc fields key
  | _ => None
  end.

Definition show_result (result : Json) : PageOutput :=
  match subscript result "status" with
  | Some st =>
      if is_str st "success" then
        match subscript result "recommended_movies" with
        | Some recommendations => Recommendations recommendations
        | None => Uncaught
        end
      else
        match subscript result "message" with
        | Some message => ErrorMessage message
        | None => Uncaught
        end
  | None => Uncaught
  end.

End StreamlitApp.

(** ** The service behind the transport *)

Section Served.

Variable str_of_exn : exn -> string.
Variable re_other : string -> result (string -> bool).

Definition ok_200 (body : Json) : StreamlitApp.outcome StreamlitApp.HttpResponse :=
  StreamlitApp.Done (StreamlitApp.mkHttpResponse 200 (StreamlitApp.Done body)).

(** The requests of the page reach the application with the globals [g]:
    each route answers with status 200 and the dict its endpoint
    returns. *)
Definition serves (g : Globals) (rq : StreamlitApp.Requests) : Prop :=
  StreamlitApp.get rq (StreamlitApp.API_URL ++ "/health") []
  = ok_200 (json_of_HealthResponse (health_check g)) /\
  (forall limit,
      StreamlitApp.get rq (StreamlitApp.API_URL ++ "/movies") [("limit", JInt limit)]
      = ok_200 (json_of_MoviesResponse str_of_exn (get_available_movies g limit))) /\
  (forall query limit,
      StreamlitApp.get rq (StreamlitApp.API_URL ++ "/search")
        [("query", JStr query); ("limit", JInt limit)]
      = ok_200 (json_of_SearchResponse str_of_exn (search_movies re_other g query limit))) /\
  (forall movie,
      StreamlitApp.post rq (StreamlitApp.API_URL ++ "/recommend")
        (JDict [("movie", JStr movie)])
      = ok_200 (json_of_Response str_of_exn (get_recommendation g movie))).

(** A transport that hands each request of the page to its endpoint. *)
Definition loopback (g : Globals) : StreamlitApp.Requests :=
  StreamlitApp.mkRequests
    (fun url params =>
       if String.eqb url (StreamlitApp.API_URL ++ "/health") then
         ok_200 (json_of_HealthResponse (health_check g))
       else
         match params with
         | [(_, JInt limit)] =>
             ok_200 (json_of_MoviesResponse str_of_exn (get_available_movies g limit))
         | [(_, JStr query); (_, JInt limit)] =>
             ok_200 (json_of_SearchResponse str_of_exn
                       (search_movies re_other g query limit))
         | _ => StreamlitApp.Raised "no route"
         end)
    (fun url body =>
       match body with
       | JDict [(_, JStr movie)] =>
           ok_200 (json_of_Response str_of_exn (get_recommendation g movie))
       | _ => StreamlitApp.Raised "no route"
       end).

End Served.

(** The text of an exception, for the examples. *)
Definition no_text : exn -> string := fun _ => "".

(** ** Snapshots *)

(** The data-model invariant of a loaded snapshot of [N] records: a
    frame of [N] rows whose [title] column holds the [N] names, and an
    [N] x [N] similarity matrix. *)
Definition snapshot (g : Globals) (N : nat) (titles : list string) (m : Matrix) : Prop :=
  df_len (new_df g) = N /\
  df_getitem (new_df g) "title" = Ok titles /\
  List.length titles = N /\
  similarity g = Some m /\
  List.length m = N /\
  Forall (fun row => List.length row = N) m.

(** [x] is ranked before [y]: a greater score, or the same score and a
    smaller row index. *)
Definition ranks_before (x y : nat * Score) : Prop :=
  (snd y < snd x)%Q \/ ((snd x == snd y)%Q /\ (fst x < fst y)%nat).

(** ** Example catalogues *)

(** Three records named [A], [B], [C], over the similarity matrix [m]. *)
Definition catalogue_abc (m : Matrix) : Globals :=
  mkGlobals (Some (OpaqueVectorizer 0)) [("title", ["A"; "B"; "C"])] (Some m).

(** [A] and [B] have the same features: their mutual similarity is the
    self-similarity [1]. *)
Definition twin_matrix : Matrix :=
  [ [1; 1; 1#2]; [1; 1; 1#2]; [1#2; 1#2; 1] ]%Q.

(** The diagonal entry of [A] is not the greatest of its row. *)
Definition low_diagonal_matrix : Matrix :=
  [ [2#10; 9#10; 5#10]; [9#10; 1; 1#2]; [5#10; 1#2; 1] ]%Q.

(** [B] and [C] are equally similar to [A]. *)
Definition tie_matrix (rowB rowC : list Score) : Matrix :=
  [ [1; 1#2; 1#2]%Q; rowB; rowC ].

Definition identity3 : Matrix :=
  [ [1; 0; 0]; [0; 1; 0]; [0; 0; 1] ]%Q.

Definition catalogue_of (titles : list string) (m : Matrix) : Globals :=
  mkGlobals (Some (OpaqueVectorizer 0)) [("title", titles)] (Some m).

(** The path the module computes for the artifact. *)
Definition model_path : string := "notebook/movie_recommendation_system1.joblib.gz".

(** A world whose artifact file is readable and decodes to [data]. *)
Definition world_with (data : ArtifactDict) : World :=
  mkWorld (fun p => if String.eqb p model_path then Some [] else None)
          (fun compressed => Some compressed)
          (fun _ => Some data).

(** A world without any file. *)
Definition world_without_file : World :=
  mkWorld (fun _ => None) (fun _ => None) (fun _ => None).

(** A well-formed artifact that holds no record. *)
Definition artifact_no_records : ArtifactDict :=
  mkArtifact (Some (Some (OpaqueVectorizer 0))) (Some (Some [("title", [])]))
             (Some (Some [])).

Definition artifact_abc : ArtifactDict :=
  mkArtifact (Some (Some (OpaqueVectorizer 0)))
             (Some (Some [("title", ["A"; "B"; "C"])]))
             (Some (Some identity3)).

(** An artifact of three records that holds [None] under
    [similarity_matrix]. *)
Definition artifact_none_matrix : ArtifactDict :=
  mkArtifact (Some (Some (OpaqueVectorizer 0)))
             (Some (Some [("title", ["A"; "B"; "C"])]))
             (Some None).

(** Two records, one named by digits only and one by letters only. *)
Definition catalogue_digits : Globals :=
  catalogue_of ["2012"; "Up"] [ [1; 0]; [0; 1] ]%Q.

Definition catalogue_dark : Globals :=
  catalogue_of ["Dark Knight"; "Up"] [ [1; 0]; [0; 1] ]%Q.

(** A compiler for the rest of the pattern syntax that rejects it all. *)
Definition re_rejects : string -> result (string -> bool) :=
  fun _ => Raise ReError.

(** ** Classes of queries *)

(** [query.strip() == ""]: empty, or white space only. *)
Definition blank (query : string) : bool :=
  forallb Re.is_space (list_ascii_of_string query).

(** No character of [query] has a meaning of its own in a pattern. *)
Definition literal (query : string) : bool :=
  forallb (fun c => negb (Re.is_meta c)) (list_ascii_of_string query).

(** Every character of [s] is an ASCII character. *)
Definition ascii_only (s : string) : bool :=
  forallb (fun c => (nat_of_ascii c <? 128)%nat) (list_ascii_of_string s).

(** [query.lower()] *)
Definition lower_string (query : string) : list ascii :=
  map Re.lower (list_ascii_of_string query).

(** ** Relations used in the statements *)

(** [l1] is [l2] with some elements left out, the order kept. *)
Inductive Subsequence {A : Type} : list A -> list A -> Prop :=
| Subsequence_nil : Subsequence [] []
| Subsequence_take x l1 l2 : Subsequence l1 l2 -> Subsequence (x :: l1) (x :: l2)
| Subsequence_skip x l1 l2 : Subsequence l1 l2 -> Subsequence l1 (x :: l2).

(** [name] has a substring that equals [query] up to letter case. *)
Definition contains_ignoring_case (query name : string) : Prop :=
  exists pre mid post,
    name = (pre ++ mid ++ post)%string /\ lower_string mid = lower_string query.

(** ** The two outcomes of the load *)

(** The load is ready with the globals [g]: the [try] body ran to its end. *)
Definition Ready (outcome : Globals * Message) (g : Globals) : Prop :=
  outcome = (g, Text "Model loaded successfully!").

(** The load failed for the reason [e]: the [except] branch ran. *)
Definition Failed (outcome : Globals * Message) (e : exn) : Prop :=
  outcome = (not_loaded, TextWithExn "Error loading model: " e).

(** * Properties *)

(** ** The error monad and slices *)

Lemma comprehension_iloc (titles : list string) (cands : list (nat * Score)) :
  Forall (fun c => fst c < List.length titles) cands ->
  comprehension (fun i => iloc_title titles (fst i)) cands
  = Ok (map (fun c => nth (fst c) titles "") cands).
Proof.
  induction 1 as [|c cands Hc _ IH]; simpl; [reflexivity|].
  unfold iloc_title at 1.
  destruct (nth_error titles (fst c)) as [t|] eqn:E.
  - simpl. rewrite IH. simpl.
    now rewrite (nth_error_nth _ _ _ E).
  - apply nth_error_None in E. lia.
Qed.

Lemma slice_length {A} (a b : nat) (l : list A) :
  List.length (slice a b l) = Nat.min (b - a) (List.length l - a).
Proof.
  unfold slice. now rewrite length_firstn, length_skipn.
Qed.

Lemma In_firstn {A} (n : nat) (l : list A) (x : A) :
  In x (firstn n l) -> In x l.
Proof.
  intros H. rewrite <- (firstn_skipn n l). apply in_or_app. now left.
Qed.

Lemma In_skipn {A} (n : nat) (l : list A) (x : A) :
  In x (skipn n l) -> In x l.
Proof.
  intros H. rewrite <- (firstn_skipn n l). apply in_or_app. now right.
Qed.

Lemma slice_incl {A} (a b : nat) (l : list A) (x : A) :
  In x (slice a b l) -> In x l.
Proof.
  unfold slice. intros H.
  now apply In_firstn, In_skipn in H.
Qed.

Lemma enumerate_from_length {A} (k : nat) (l : list A) :
  List.length (enumerate_from k l) = List.length l.
Proof.
  revert k; induction l as [|x l IH]; intros k; simpl; congruence.
Qed.

Lemma enumerate_from_In {A} (l : list A) (k i : nat) (s : A) :
  In (i, s) (enumerate_from k l) -> k <= i /\ nth_error l (i - k) = Some s.
Proof.
  revert k; induction l as [|x l IH]; intros k; simpl; [tauto|].
  intros [E | H].
  - inversion E; subst. split; [lia|]. now rewrite Nat.sub_diag.
  - apply IH in H as [Hk Hn]. split; [lia|].
    replace (i - k) with (S (i - S k)) by lia. exact Hn.
Qed.

Lemma enumerate_In {A} (l : list A) (i : nat) (s : A) :
  In (i, s) (enumerate l) -> nth_error l i = Some s.
Proof.
  intros H. apply enumerate_from_In in H as [_ H].
  now rewrite Nat.sub_0_r in H.
Qed.

(** ** The sort *)

Section Sorting.

Implicit Types (x y z : nat * Score) (l : list (nat * Score)).

Lemma insert_desc_In x l z :
  In z (insert_desc x l) <-> z = x \/ In z l.
Proof.
  induction l as [|y l IH]; simpl.
  - intuition congruence.
  - destruct (Qle_bool (snd y) (snd x)); simpl; rewrite ?IH; intuition congruence.
Qed.

Lemma sorted_desc_In l z : In z (sorted_desc l) <-> In z l.
Proof.
  induction l as [|x l IH]; simpl; [tauto|].
  rewrite insert_desc_In, IH. intuition congruence.
Qed.

Lemma insert_desc_perm x l : Permutation (x :: l) (insert_desc x l).
Proof.
  induction l as [|y l IH]; simpl; [reflexivity|].
  destruct (Qle_bool (snd y) (snd x)); [reflexivity|].
  rewrite perm_swap. now apply perm_skip.
Qed.

Lemma sorted_desc_perm l : Permutation l (sorted_desc l).
Proof.
  induction l as [|x l IH]; simpl; [constructor|].
  rewrite <- insert_desc_perm. now apply perm_skip.
Qed.

Lemma sorted_desc_length l : List.length (sorted_desc l) = List.length l.
Proof. symmetry. apply Permutation_length, sorted_desc_perm. Qed.

Lemma ranks_before_score_le x y : ranks_before x y -> (snd y <= snd x)%Q.
Proof.
  intros [H | [H _]].
  - now apply Qlt_le_weak.
  - rewrite H. apply Qle_refl.
Qed.

(** Inserting an element that stood before all of [l] in the input. *)
Lemma insert_desc_sorted x l :
  StronglySorted ranks_before l ->
  Forall (fun z => fst x < fst z) l ->
  StronglySorted ranks_before (insert_desc x l).
Proof.
  induction 1 as [|y l Hs IH Hy]; intros Hx; simpl.
  - repeat constructor.
  - inversion Hx as [|? ? Hxy Hxl]; subst.
    destruct (Qle_bool (snd y) (snd x)) eqn:E.
    + apply Qle_bool_iff in E.
      assert (Hall : forall z, In z (y :: l) -> ranks_before x z).
      { intros z Hz.
        assert (Hle : (snd z <= snd x)%Q).
        { destruct Hz as [<- | Hz]; [exact E|].
          rewrite Forall_forall in Hy.
          apply Qle_trans with (snd y); [|exact E].
          now apply ranks_before_score_le, Hy. }
        assert (Hlt : fst x < fst z).
        { rewrite Forall_forall in Hx. now apply Hx. }
        destruct (Qlt_le_dec (snd z) (snd x)) as [Hzx | Hxz].
        - now left.
        - right. split; [|exact Hlt]. now apply Qle_antisym. }
      constructor; [now constructor|].
      now apply Forall_forall.
    + assert (Hlt : (snd x < snd y)%Q).
      { apply Qnot_le_lt. intros H. apply Qle_bool_iff in H. congruence. }
      constructor; [now apply IH|].
      apply Forall_forall. intros z Hz.
      apply insert_desc_In in Hz as [-> | Hz].
      * now left.
      * rewrite Forall_forall in Hy. now apply Hy.
Qed.

Lemma sorted_desc_enumerate_from (k : nat) (row : list Score) :
  StronglySorted ranks_before (sorted_desc (enumerate_from k row)).
Proof.
  revert k; induction row as [|s row IH]; intros k; simpl; [constructor|].
  apply insert_desc_sorted; [apply IH|].
  apply Forall_forall. intros [i t] Hz. simpl.
  apply -> sorted_desc_In in Hz. apply enumerate_from_In in Hz. lia.
Qed.

Lemma StronglySorted_skipn {A} (R : A -> A -> Prop) (n : nat) (l : list A) :
  StronglySorted R l -> StronglySorted R (skipn n l).
Proof.
  revert l; induction n as [|n IH]; intros l H; simpl; [exact H|].
  destruct l as [|a l]; [exact H|].
  apply IH. now inversion H.
Qed.

Lemma StronglySorted_firstn {A} (R : A -> A -> Prop) (n : nat) (l : list A) :
  StronglySorted R l -> StronglySorted R (firstn n l).
Proof.
  revert l; induction n as [|n IH]; intros l H; simpl; [constructor|].
  destruct l as [|a l]; [constructor|].
  inversion H as [|? ? Hs Ha]; subst.
  constructor; [now apply IH|].
  apply Forall_forall. intros z Hz. apply In_firstn in Hz.
  rewrite Forall_forall in Ha. now apply Ha.
Qed.

Lemma movies_list_sorted (row : list Score) :
  StronglySorted ranks_before (movies_list row).
Proof.
  unfold movies_list, slice, enumerate.
  apply StronglySorted_firstn, StronglySorted_skipn, sorted_desc_enumerate_from.
Qed.

Lemma movies_list_In (row : list Score) (i : nat) (s : Score) :
  In (i, s) (movies_list row) -> nth_error row i = Some s.
Proof.
  unfold movies_list. intros H.
  apply slice_incl in H. apply -> sorted_desc_In in H.
  now apply enumerate_In.
Qed.

Lemma movies_list_length (row : list Score) :
  List.length (movies_list row) = Nat.min 5 (List.length row - 1).
Proof.
  unfold movies_list. rewrite slice_length, sorted_desc_length.
  unfold enumerate. now rewrite enumerate_from_length.
Qed.

End Sorting.

(** ** Name resolution *)

Lemma first_index_from_Ok (titles : list string) (k i : nat) (movie : string) :
  first_index_from k movie titles = Ok i <->
  k <= i /\ nth_error titles (i - k) = Some movie /\
  forall j, j < i - k -> nth_error titles j <> Some movie.
Proof.
  revert k; induction titles as [|t titles IH]; intros k; simpl.
  - split; [discriminate|]. intros (_ & H & _).
    now destruct (i - k).
  - destruct (String.eqb_spec t movie) as [-> | Hne].
    + split.
      * intros E; inversion E; subst. rewrite Nat.sub_diag.
        repeat split; [lia | intros j Hj; lia].
      * intros (Hk & Hn & Hmin).
        destruct (i - k) as [|d] eqn:Ed; [f_equal; lia|].
        exfalso. apply (Hmin 0); [lia | reflexivity].
    + rewrite IH. split.
      * intros (Hk & Hn & Hmin).
        replace (i - k) with (S (i - S k)) by lia.
        repeat split; [lia | exact Hn |].
        intros [|j] Hj; simpl; [congruence | apply Hmin; lia].
      * intros (Hk & Hn & Hmin).
        destruct (i - k) as [|d] eqn:Ed; simpl in Hn; [congruence|].
        replace (i - S k) with d by lia.
        repeat split; [lia | exact Hn |].
        intros j Hj. apply (Hmin (S j)). lia.
Qed.

Lemma first_index_Ok (titles : list string) (i : nat) (movie : string) :
  first_index movie titles = Ok i <->
  nth_error titles i = Some movie /\
  forall j, j < i -> nth_error titles j <> Some movie.
Proof.
  unfold first_index. rewrite first_index_from_Ok, Nat.sub_0_r.
  intuition lia.
Qed.

Lemma existsb_eqb_In (movie : string) (titles : list string) :
  existsb (String.eqb movie) titles = true <-> In movie titles.
Proof.
  rewrite existsb_exists. split.
  - intros (t & Ht & E). apply String.eqb_eq in E. now subst.
  - intros H. exists movie. split; [exact H | apply String.eqb_refl].
Qed.

(** A name of the column resolves, to a row of the frame. *)
Lemma first_index_from_total (titles : list string) (movie : string) (k : nat) :
  In movie titles ->
  exists i, first_index_from k movie titles = Ok i /\ i < k + List.length titles.
Proof.
  revert k; induction titles as [|t titles IH]; intros k H; simpl; [destruct H|].
  destruct (String.eqb_spec t movie) as [-> | Hne].
  - exists k. split; [reflexivity | lia].
  - destruct H as [-> | H]; [congruence|].
    destruct (IH (S k) H) as (i & Hi & Hlt).
    exists i. split; [exact Hi | lia].
Qed.

(** ** [recommend] on a snapshot *)

Lemma recommend_resolved (g : Globals) (N : nat) (titles : list string)
    (m : Matrix) (movie : string) :
  snapshot g N titles m ->
  In movie titles ->
  exists idx row,
    first_index movie titles = Ok idx /\
    nth_error m idx = Some row /\
    List.length row = N /\
    recommend g movie
    = Ok (map (fun c => nth (fst c) titles "") (movies_list row)).
Proof.
  intros (_ & Ht & HN & Hs & Hm & Hrows) Hin.
  destruct (first_index_from_total titles movie 0 Hin) as (idx & Hidx & Hlt).
  simpl in Hlt.
  destruct (nth_error m idx) as [row|] eqn:Erow.
  2:{ apply nth_error_None in Erow. lia. }
  assert (Hlen : List.length row = N).
  { rewrite Forall_forall in Hrows. apply Hrows.
    eapply nth_error_In; eauto. }
  exists idx, row. repeat split; trivial.
  unfold recommend. rewrite Ht. simpl.
  apply existsb_eqb_In in Hin. rewrite Hin. simpl.
  unfold first_index. rewrite Hidx. simpl.
  rewrite Hs. simpl. rewrite Erow. simpl.
  apply comprehension_iloc.
  apply Forall_forall. intros [i s] Hc. simpl.
  apply movies_list_In in Hc.
  assert (i < List.length row) by (apply nth_error_Some; congruence).
  lia.
Qed.

Lemma recommend_unresolved (g : Globals) (titles : list string) (movie : string) :
  df_getitem (new_df g) "title" = Ok titles ->
  ~ In movie titles ->
  recommend g movie = Ok [].
Proof.
  intros Ht Hnin. unfold recommend. rewrite Ht. simpl.
  destruct (existsb (String.eqb movie) titles) eqn:E; [|reflexivity].
  apply existsb_eqb_In in E. contradiction.
Qed.

(** ** The ranking returned by [recommend] *)

(** C3.  For a name that resolves, [recommend] returns the names of a
    list of candidates [(row index, score)] taken from the similarity row
    of the query, in which every candidate is ranked before all later
    ones: its score is greater, or equal with a smaller row index.  For
    the items [A], [B], [C] with the row [1.0, 0.5, 0.5] for [A],
    [recommend "A"] is [B], [C]. *)
Theorem recommend_ranks_by_score_then_index :
  (forall g N titles m movie,
      snapshot g N titles m ->
      In movie titles ->
      exists idx row cands,
        first_index movie titles = Ok idx /\
        nth_error m idx = Some row /\
        recommend g movie = Ok (map (fun c => nth (fst c) titles "") cands) /\
        (forall i s, In (i, s) cands -> nth_error row i = Some s) /\
        StronglySorted ranks_before cands) /\
  (forall rowB rowC,
      recommend (catalogue_abc (tie_matrix rowB rowC)) "A" = Ok ["B"; "C"]).
Proof.
  split.
  - intros g N titles m movie Hsnap Hin.
    destruct (recommend_resolved g N titles m movie Hsnap Hin)
      as (idx & row & Hidx & Hrow & _ & Hrec).
    exists idx, row, (movies_list row).
    repeat split; trivial.
    + apply movies_list_In.
    + apply movies_list_sorted.
  - intros rowB rowC. reflexivity.
Qed.

Lemma snapshot_identity3 :
  snapshot (catalogue_abc identity3) 3 ["A"; "B"; "C"] identity3.
Proof.
  unfold snapshot; simpl. repeat split; repeat constructor.
Qed.

Lemma recommend_ranks_by_score_then_index_witness :
  exists idx row cands,
    first_index "B" ["A"; "B"; "C"] = Ok idx /\
    nth_error identity3 idx = Some row /\
    recommend (catalogue_abc identity3) "B"
    = Ok (map (fun c => nth (fst c) ["A"; "B"; "C"] "") cands) /\
    (forall i s, In (i, s) cands -> nth_error row i = Some s) /\
    StronglySorted ranks_before cands.
Proof.
  apply (proj1 recommend_ranks_by_score_then_index
           (catalogue_abc identity3) 3 ["A"; "B"; "C"] identity3 "B").
  - exact snapshot_identity3.
  - simpl. tauto.
Defined.

(** C4.  On a snapshot of [N] records, [recommend] of a name that
    resolves returns a list of exactly [min 5 (N - 1)] names. *)
Theorem recommend_length (g : Globals) (N : nat) (titles : list string)
    (m : Matrix) (movie : string) :
  snapshot g N titles m ->
  In movie titles ->
  exists names,
    recommend g movie = Ok names /\
    List.length names = Nat.min 5 (N - 1).
Proof.
  intros Hsnap Hin.
  destruct (recommend_resolved g N titles m movie Hsnap Hin)
    as (idx & row & _ & _ & Hlen & Hrec).
  eexists. split; [exact Hrec|].
  now rewrite length_map, movies_list_length, Hlen.
Qed.

Lemma recommend_length_witness :
  exists names,
    recommend (catalogue_abc identity3) "C" = Ok names /\
    List.length names = Nat.min 5 (3 - 1).
Proof.
  apply (recommend_length (catalogue_abc identity3) 3 ["A"; "B"; "C"] identity3 "C").
  - exact snapshot_identity3.
  - simpl. tauto.
Defined.

(** C7.  The row a name resolves to is the first row, in record order,
    that carries the name; a row whose name also stands at an earlier row
    is the resolution of no name.  With exactly the rows 3 and 7 named
    [X], [X] resolves to 3. *)
Theorem first_occurrence_wins :
  (forall titles movie i,
      nth_error titles i = Some movie ->
      (forall j, j < i -> nth_error titles j <> Some movie) ->
      first_index movie titles = Ok i) /\
  (forall titles name i j,
      i < j ->
      nth_error titles i = Some name ->
      nth_error titles j = Some name ->
      forall movie, first_index movie titles <> Ok j) /\
  (forall titles,
      nth_error titles 3 = Some "X" ->
      nth_error titles 7 = Some "X" ->
      (forall j, j <> 3 -> j <> 7 -> nth_error titles j <> Some "X") ->
      first_index "X" titles = Ok 3).
Proof.
  split; [|split].
  - intros titles movie i Hi Hmin. now apply first_index_Ok.
  - intros titles name i j Hij Hi Hj movie H.
    apply first_index_Ok in H as [Hm Hmin].
    apply (Hmin i Hij). congruence.
  - intros titles H3 H7 Hothers.
    apply first_index_Ok. split; [exact H3|].
    intros j Hj. apply Hothers; lia.
Qed.

Lemma first_occurrence_wins_witness :
  first_index "X" ["a"; "b"; "c"; "X"; "d"; "e"; "f"; "X"] = Ok 3 /\
  (forall movie,
      first_index movie ["a"; "b"; "c"; "X"; "d"; "e"; "f"; "X"] <> Ok 7).
Proof.
  split.
  - apply (proj2 (proj2 first_occurrence_wins)); try reflexivity.
    intros j H3 H7.
    do 8 (destruct j as [|j]; [simpl; congruence|]).
    now destruct j.
  - apply (proj1 (proj2 first_occurrence_wins) _ "X" 3 7);
      [lia | reflexivity | reflexivity].
Defined.

(** ** The query item among its own recommendations *)

Lemma ranks_before_irrefl (x : nat * Score) : ~ ranks_before x x.
Proof.
  intros [H | [_ H]].
  - revert H. apply Qlt_irrefl.
  - lia.
Qed.

(** Where the entry of the query's own row index is the first of the
    ranking, dropping the first ranked entry drops the query: no candidate
    of [movies_list] carries the row index [idx]. *)
Lemma movies_list_excludes_dominant_self (row : list Score) (idx : nat) (s : Score) :
  nth_error row idx = Some s ->
  (forall j t, j < idx -> nth_error row j = Some t -> (t < s)%Q) ->
  (forall j t, idx < j -> nth_error row j = Some t -> (t <= s)%Q) ->
  forall c, In c (movies_list row) -> fst c <> idx.
Proof.
  intros Hs Hbefore Hafter [i t] Hc Ei. simpl in Ei. subst i.
  assert (Et : t = s).
  { apply movies_list_In in Hc. congruence. }
  subst t.
  unfold movies_list, slice in Hc. apply In_firstn in Hc.
  pose proof (sorted_desc_enumerate_from 0 row) as Hsorted.
  fold (enumerate row) in Hsorted.
  destruct (sorted_desc (enumerate row)) as [|[j t] tl] eqn:E; [destruct Hc|].
  simpl in Hc.
  inversion Hsorted as [|? ? Htl Hhd]; subst.
  rewrite Forall_forall in Hhd.
  assert (Hj : nth_error row j = Some t).
  { apply enumerate_In. apply sorted_desc_In. rewrite E. now left. }
  pose proof (Hhd _ Hc) as Hrank.
  destruct (Nat.lt_trichotomy j idx) as [Hlt | [-> | Hgt]].
  - pose proof (Hbefore j t Hlt Hj) as Hts.
    destruct Hrank as [H | [H _]]; simpl in H.
    + apply (Qlt_irrefl s). now apply Qlt_trans with t.
    + rewrite H in Hts. revert Hts. apply Qlt_irrefl.
  - assert (t = s) by congruence. subst t.
    now apply (ranks_before_irrefl (idx, s)).
  - pose proof (Hafter j t Hgt Hj) as Hts.
    destruct Hrank as [H | [_ H]]; simpl in H.
    + apply (Qlt_irrefl s). now apply Qlt_le_trans with t.
    + lia.
Qed.

(** C1.  The code does not remove the entry of the query's own row index:
    it drops whichever entry the sort ranks first.  With [A] and [B]
    equally similar to [B] as [B] is to itself, the entry dropped for the
    query [B] is that of [A], and [B] is recommended for [B]; with a
    diagonal entry that is not the greatest of its row, [A] is recommended
    for [A]. *)
Theorem recommend_returns_the_query_itself :
  recommend (catalogue_abc twin_matrix) "B" = Ok ["B"; "C"] /\
  recommend (catalogue_abc low_diagonal_matrix) "A" = Ok ["C"; "A"].
Proof.
  split; reflexivity.
Qed.

(** ** Not found, and not loaded *)

Lemma snapshot_not_empty (g : Globals) (N : nat) (titles : list string) (m : Matrix) :
  snapshot g N titles m ->
  0 < N ->
  df_empty (new_df g) || is_None (similarity g) = false.
Proof.
  intros (Hlen & _ & _ & Hs & _) HN.
  unfold df_empty. rewrite Hlen, Hs. simpl.
  rewrite orb_false_r. apply Nat.eqb_neq. lia.
Qed.

(** C10.  A name that is not in the catalogue makes [recommend] return
    the empty list; so does the name of the only record of a one-record
    snapshot, and [get_recommendation] answers both with the
    "not found in database" error. *)
Theorem single_record_reported_not_found :
  (forall g titles movie,
      df_getitem (new_df g) "title" = Ok titles ->
      ~ In movie titles ->
      recommend g movie = Ok []) /\
  (forall g titles m movie,
      snapshot g 1 titles m ->
      In movie titles ->
      recommend g movie = Ok [] /\
      get_recommendation g movie = movie_not_found movie).
Proof.
  split.
  - exact recommend_unresolved.
  - intros g titles m movie Hsnap Hin.
    destruct (recommend_resolved g 1 titles m movie Hsnap Hin)
      as (idx & row & _ & _ & Hlen & Hrec).
    assert (Hnil : movies_list row = []).
    { apply length_zero_iff_nil. rewrite movies_list_length, Hlen. reflexivity. }
    rewrite Hnil in Hrec. simpl in Hrec.
    split; [exact Hrec|].
    unfold get_recommendation.
    rewrite (snapshot_not_empty g 1 titles m Hsnap Nat.lt_0_1).
    now rewrite Hrec.
Qed.

Lemma single_record_reported_not_found_witness :
  recommend (catalogue_of ["Up"] [[1%Q]]) "Heat" = Ok [] /\
  recommend (catalogue_of ["Up"] [[1%Q]]) "Up" = Ok [] /\
  get_recommendation (catalogue_of ["Up"] [[1%Q]]) "Up" = movie_not_found "Up".
Proof.
  split.
  - apply (proj1 single_record_reported_not_found _ ["Up"]).
    + reflexivity.
    + simpl. intros [H | []]. discriminate H.
  - apply (proj2 single_record_reported_not_found _ ["Up"] [[1%Q]]).
    + unfold snapshot; simpl. repeat split; repeat constructor.
    + simpl. tauto.
Defined.

Lemma load_body_Raise (w : World) (path : string) (e : exn) :
  load_body w path = Raise e -> Failed (load w path) e.
Proof.
  unfold Failed, load. now intros ->.
Qed.

Lemma load_body_Ok (w : World) (path : string) (o : Globals * Message) :
  load_body w path = Ok o ->
  load w path = o /\ snd o = Text "Model loaded successfully!".
Proof.
  unfold load. intros H. rewrite H. simpl. split; [reflexivity|].
  unfold load_body, gzip_open, joblib_load, dict_getitem in H.
  destruct (file_at w path); simpl in H; [|discriminate].
  destruct (gunzip w l); simpl in H; [|discriminate].
  destruct (joblib_decode w l0) as [data|]; simpl in H; [|discriminate].
  destruct (art_vectorizer data); simpl in H; [|discriminate].
  destruct (art_dataframe data) as [d|]; simpl in H; [|discriminate].
  destruct (pd_DataFrame_value d); simpl in H; [|discriminate].
  destruct (art_similarity_matrix data); simpl in H; [|discriminate].
  inversion H; subst; reflexivity.
Qed.

(** What a ready load has read: the globals are the values of the three
    keys, the frame built from the value of [dataframe]. *)
Lemma load_body_Ok_fields (w : World) (path : string) (g : Globals) (msg : Message) :
  load_body w path = Ok (g, msg) ->
  exists compressed raw data d,
    file_at w path = Some compressed /\
    gunzip w compressed = Some raw /\
    joblib_decode w raw = Some data /\
    art_vectorizer data = Some (vectorizer g) /\
    art_dataframe data = Some d /\
    pd_DataFrame_value d = Ok (new_df g) /\
    art_similarity_matrix data = Some (similarity g).
Proof.
  unfold load_body, gzip_open, joblib_load, dict_getitem. intros H.
  destruct (file_at w path) as [compressed|]; simpl in H; [|discriminate].
  destruct (gunzip w compressed) as [raw|] eqn:Ez; simpl in H; [|discriminate].
  destruct (joblib_decode w raw) as [data|] eqn:Ed; simpl in H; [|discriminate].
  destruct (art_vectorizer data) as [v|] eqn:Ev; simpl in H; [|discriminate].
  destruct (art_dataframe data) as [d|] eqn:Edf; simpl in H; [|discriminate].
  destruct (pd_DataFrame_value d) as [df|] eqn:Ep; simpl in H; [|discriminate].
  destruct (art_similarity_matrix data) as [sm|] eqn:Es; simpl in H; [|discriminate].
  inversion H; subst; simpl.
  exists compressed, raw, data, d. repeat split; trivial.
Qed.

(** C6.  After a failed load, [get_recommendation] answers every name
    with the "model not loaded" error, which is not the "not found" error;
    the answer is not the one a name lookup would have led to, since
    [recommend] raises on the globals of a failed load. *)
Theorem failed_load_is_service_unavailable (w : World) (path : string)
    (e : exn) (movie : string) :
  Failed (load w path) e ->
  get_recommendation (fst (load w path)) movie = model_not_loaded /\
  model_not_loaded <> movie_not_found movie /\
  recommend (fst (load w path)) movie = Raise (KeyError "title").
Proof.
  unfold Failed. intros ->. simpl.
  repeat split. unfold model_not_loaded, movie_not_found. simpl.
  intros H. inversion H.
Qed.

Lemma failed_load_is_service_unavailable_witness :
  get_recommendation (fst (load world_without_file model_path)) "The Dark Knight"
  = model_not_loaded /\
  model_not_loaded <> movie_not_found "The Dark Knight" /\
  recommend (fst (load world_without_file model_path)) "The Dark Knight"
  = Raise (KeyError "title").
Proof.
  apply (failed_load_is_service_unavailable world_without_file model_path
           FileNotFoundError "The Dark Knight").
  reflexivity.
Defined.

(** ** The load *)

Lemma Ready_load_body (w : World) (path : string) (g : Globals) :
  Ready (load w path) g ->
  load_body w path = Ok (g, Text "Model loaded successfully!").
Proof.
  unfold Ready, load.
  destruct (load_body w path) as [o|e]; simpl.
  - now intros ->.
  - discriminate.
Qed.

(** C8.  The load ends in exactly one of two outcomes, ready with the
    globals read from the artifact or failed with the exception as reason
    and the not-loaded globals installed; no exception leaves it.  A
    missing file, content that cannot be decompressed or decoded, and a
    decoded dict that lacks one of the three keys all end in the failed
    outcome. *)
Theorem load_ends_ready_or_failed (w : World) (path : string) :
  ((exists g, Ready (load w path) g) \/ (exists e, Failed (load w path) e)) /\
  ~ ((exists g, Ready (load w path) g) /\ (exists e, Failed (load w path) e)) /\
  (file_at w path = None -> Failed (load w path) FileNotFoundError) /\
  (forall compressed,
      file_at w path = Some compressed ->
      gunzip w compressed = None ->
      Failed (load w path) BadGzipFile) /\
  (forall compressed raw,
      file_at w path = Some compressed ->
      gunzip w compressed = Some raw ->
      joblib_decode w raw = None ->
      Failed (load w path) UnpicklingError) /\
  (forall compressed raw data,
      file_at w path = Some compressed ->
      gunzip w compressed = Some raw ->
      joblib_decode w raw = Some data ->
      art_vectorizer data = None \/ art_dataframe data = None \/
      art_similarity_matrix data = None ->
      exists e, Failed (load w path) e).
Proof.
  split; [|split; [|split; [|split; [|split]]]].
  - destruct (load_body w path) as [[g msg]|e] eqn:E.
    + left. exists g.
      destruct (load_body_Ok w path _ E) as (Hl & Hmsg).
      simpl in Hmsg. subst msg. exact Hl.
    + right. exists e. now apply load_body_Raise.
  - intros [[g Hr] [e Hf]]. unfold Ready, Failed in *.
    rewrite Hr in Hf. discriminate Hf.
  - intros Hfile. apply load_body_Raise.
    unfold load_body, gzip_open. now rewrite Hfile.
  - intros compressed Hfile Hz. apply load_body_Raise.
    unfold load_body, gzip_open, joblib_load. rewrite Hfile. simpl.
    now rewrite Hz.
  - intros compressed raw Hfile Hz Hd. apply load_body_Raise.
    unfold load_body, gzip_open, joblib_load. rewrite Hfile. simpl.
    now rewrite Hz, Hd.
  - intros compressed raw data Hfile Hz Hd Hmissing.
    destruct (load_body w path) as [o|e] eqn:E.
    + exfalso. revert E.
      unfold load_body, gzip_open, joblib_load, dict_getitem.
      rewrite Hfile. simpl. rewrite Hz, Hd. simpl.
      destruct (art_vectorizer data); simpl; [|discriminate].
      destruct (art_dataframe data) as [d|]; simpl; [|discriminate].
      destruct (pd_DataFrame_value d); simpl; [|discriminate].
      destruct (art_similarity_matrix data); simpl; [|discriminate].
      destruct Hmissing as [H | [H | H]]; discriminate H.
    + exists e. now apply load_body_Raise.
Qed.

Lemma load_ends_ready_or_failed_witness :
  Failed (load world_without_file model_path) FileNotFoundError.
Proof.
  apply (proj1 (proj2 (proj2 (load_ends_ready_or_failed world_without_file model_path)))).
  reflexivity.
Defined.

(** ** Health *)

(** C5, as the specification states it, fails: the artifact without
    records loads, and the health operation reports "not loaded". *)
Lemma health_not_loaded_after_ready_load :
  ~ (model_status (health_check (fst (load (world_with artifact_no_records) model_path)))
     = "loaded"
     <-> exists g, Ready (load (world_with artifact_no_records) model_path) g).
Proof.
  intros [_ H].
  assert (E : model_status
                (health_check (fst (load (world_with artifact_no_records) model_path)))
              = "loaded").
  { apply H. eexists. reflexivity. }
  vm_compute in E. discriminate E.
Qed.

(** C5, amended.  The health operation reports "loaded" exactly when the
    frame has a row and the similarity global is not [None], and its count
    is the number of rows of the frame.  After a failed load it reports
    "not loaded" and the count 0.  After a ready load the frame is the one
    built from the value of the [dataframe] key and the similarity global
    is the value of the [similarity_matrix] key, so it reports "loaded"
    exactly when the artifact holds at least one record and a similarity
    value other than [None]; the count is the number of records in both
    cases. *)
Theorem health_reports_the_sentinels :
  (forall g,
      (model_status (health_check g) = "loaded" <->
       df_len (new_df g) <> 0 /\ similarity g <> None) /\
      movies_count (health_check g) = df_len (new_df g)) /\
  (forall w path e,
      Failed (load w path) e ->
      model_status (health_check (fst (load w path))) = "not loaded" /\
      movies_count (health_check (fst (load w path))) = 0) /\
  (forall w path g,
      Ready (load w path) g ->
      exists compressed raw data d df,
        file_at w path = Some compressed /\
        gunzip w compressed = Some raw /\
        joblib_decode w raw = Some data /\
        art_dataframe data = Some d /\
        pd_DataFrame_value d = Ok df /\
        (model_status (health_check g) = "loaded" <->
         df_len df <> 0 /\ art_similarity_matrix data <> Some None) /\
        movies_count (health_check g) = df_len df).
Proof.
  assert (Hgen : forall g,
      (model_status (health_check g) = "loaded" <->
       df_len (new_df g) <> 0 /\ similarity g <> None) /\
      movies_count (health_check g) = df_len (new_df g)).
  { intros g. unfold health_check, df_empty. simpl.
    destruct (Nat.eqb_spec (df_len (new_df g)) 0) as [E | E];
      destruct (similarity g); simpl;
      (split; [split; [intros H | intros [H1 H2]] | ]);
      try reflexivity; try discriminate; try congruence;
      try (split; [assumption | discriminate]). }
  split; [exact Hgen|split].
  - intros w path e Hf. unfold Failed in Hf. rewrite Hf. simpl.
    split; reflexivity.
  - intros w path g Hr.
    apply Ready_load_body, load_body_Ok_fields in Hr.
    destruct Hr as (compressed & raw & data & d & Hfile & Hz & Hd & _ & Hdf & Hp & Hs).
    exists compressed, raw, data, d, (new_df g).
    destruct (Hgen g) as [Hiff Hcount].
    split; [exact Hfile|]. split; [exact Hz|]. split; [exact Hd|].
    split; [exact Hdf|]. split; [exact Hp|]. split; [|exact Hcount].
    rewrite Hiff, Hs. split; intros [Hrows Hsim]; (split; [exact Hrows|]);
      congruence.
Qed.

Lemma health_reports_the_sentinels_witness :
  exists compressed raw data d df,
    file_at (world_with artifact_none_matrix) model_path = Some compressed /\
    gunzip (world_with artifact_none_matrix) compressed = Some raw /\
    joblib_decode (world_with artifact_none_matrix) raw = Some data /\
    art_dataframe data = Some d /\
    pd_DataFrame_value d = Ok df /\
    (model_status
       (health_check (mkGlobals (Some (OpaqueVectorizer 0))
                        [("title", ["A"; "B"; "C"])] None)) = "loaded" <->
     df_len df <> 0 /\ art_similarity_matrix data <> Some None) /\
    movies_count
      (health_check (mkGlobals (Some (OpaqueVectorizer 0))
                       [("title", ["A"; "B"; "C"])] None)) = df_len df.
Proof.
  apply (proj2 (proj2 health_reports_the_sentinels)
           (world_with artifact_none_matrix) model_path).
  reflexivity.
Defined.

(** An artifact of three records with [None] for its matrix loads, and
    is reported as not loaded, with count 3. *)
Example health_after_load_without_matrix :
  Ready (load (world_with artifact_none_matrix) model_path)
        (mkGlobals (Some (OpaqueVectorizer 0)) [("title", ["A"; "B"; "C"])] None) /\
  model_status (health_check (fst (load (world_with artifact_none_matrix) model_path)))
  = "not loaded" /\
  movies_count (health_check (fst (load (world_with artifact_none_matrix) model_path)))
  = 3.
Proof.
  repeat split.
Qed.

(** A ready load of three records is reported as loaded, with count 3. *)
Example health_after_ready_load :
  Ready (load (world_with artifact_abc) model_path) (catalogue_abc identity3) /\
  model_status (health_check (catalogue_abc identity3)) = "loaded" /\
  movies_count (health_check (catalogue_abc identity3)) = 3.
Proof.
  repeat split.
Qed.

(** ** Patterns made of ordinary characters *)

Section Literals.



Lemma meta_backslash (c : ascii) :
  Re.is_meta c = false -> Ascii.eqb c "\" = false.
Proof.
  unfold Re.is_meta. simpl. intros H.
  repeat (apply orb_false_elim in H; destruct H as [? H]).
  assumption.
Qed.

Lemma parse_literal (q : string) :
  literal q = true ->
  Re.parse q = Some (map Re.Lit (list_ascii_of_string q)).
Proof.
  unfold literal. induction q as [|c q IH]; simpl; [reflexivity|].
  intros H. apply andb_prop in H as [Hc Hq].
  apply negb_true_iff in Hc.
  rewrite (meta_backslash c Hc), Hc, (IH Hq). reflexivity.
Qed.





Lemma match_here_empty (t : string) : Re.match_here [] t = true.
Proof. now destruct t. Qed.

Lemma search_empty (t : string) : Re.search [] t = true.
Proof. destruct t; simpl; now rewrite ?match_here_empty. Qed.

Lemma filter_all {A} (f : A -> bool) (l : list A) :
  (forall x, f x = true) -> filter f l = l.
Proof.
  intros H. induction l as [|x l IH]; simpl; [reflexivity|].
  now rewrite H, IH.
Qed.

Lemma slice_to_incl {A} (limit : Z) (l : list A) (x : A) :
  In x (slice_to limit l) -> In x l.
Proof.
  unfold slice_to. destruct (0 <=? limit)%Z; apply In_firstn.
Qed.

(** Patterns that differ in letter case only match the same names. *)
Lemma match_here_lower (cs1 cs2 : list ascii) (t : string) :
  map Re.lower cs1 = map Re.lower cs2 ->
  Re.match_here (map Re.Lit cs1) t = Re.match_here (map Re.Lit cs2) t.
Proof.
  revert cs2 t; induction cs1 as [|c1 cs1 IH]; intros [|c2 cs2] t H;
    try discriminate H; [reflexivity|].
  simpl in H. inversion H as [[Hc Hcs]].
  destruct t as [|d t]; [reflexivity|].
  simpl. now rewrite Hc, (IH cs2 t Hcs).
Qed.

Lemma search_lower (cs1 cs2 : list ascii) (t : string) :
  map Re.lower cs1 = map Re.lower cs2 ->
  Re.search (map Re.Lit cs1) t = Re.search (map Re.Lit cs2) t.
Proof.
  intros H. induction t as [|d t IH]; simpl.
  - now rewrite (match_here_lower cs1 cs2 "" H).
  - now rewrite (match_here_lower cs1 cs2 (String d t) H), IH.
Qed.

(** A pattern of ordinary characters finds the names that contain it up
    to the folding of letter case. *)
Lemma match_here_literal (q t : string) :
  Re.match_here (map Re.Lit (list_ascii_of_string q)) t = true <->
  exists mid post, t = (mid ++ post)%string /\ lower_string mid = lower_string q.
Proof.
  revert t; induction q as [|c q IH]; intros t.
  - simpl. split; [|reflexivity].
    intros _. exists "", t. split; reflexivity.
  - destruct t as [|d t].
    + split; [discriminate|].
      intros (mid & post & E & Hl).
      destruct mid; [discriminate Hl | discriminate E].
    + change (Re.match_here (map Re.Lit (list_ascii_of_string (String c q))) (String d t))
        with (Ascii.eqb (Re.lower c) (Re.lower d)
              && Re.match_here (map Re.Lit (list_ascii_of_string q)) t).
      rewrite andb_true_iff, Ascii.eqb_eq, IH. split.
      * intros (Hc & mid & post & -> & Hl).
        exists (String d mid), post. split; [reflexivity|].
        unfold lower_string in *. simpl. now rewrite Hl, Hc.
      * intros (mid & post & E & Hl).
        destruct mid as [|d' mid]; [discriminate Hl|].
        simpl in E. inversion E; subst d' t.
        unfold lower_string in Hl. simpl in Hl. inversion Hl as [[Hd Hm]].
        split; [now symmetry|].
        now exists mid, post.
Qed.

Lemma search_literal (q t : string) :
  Re.search (map Re.Lit (list_ascii_of_string q)) t = true <->
  contains_ignoring_case q t.
Proof.
  unfold contains_ignoring_case. induction t as [|d t IH].
  - simpl. rewrite orb_false_r, match_here_literal. split.
    + intros (mid & post & E & Hl). now exists "", mid, post.
    + intros (pre & mid & post & E & Hl).
      destruct pre; [|discriminate E].
      now exists mid, post.
  - change (Re.search (map Re.Lit (list_ascii_of_string q)) (String d t))
      with (Re.match_here (map Re.Lit (list_ascii_of_string q)) (String d t)
            || Re.search (map Re.Lit (list_ascii_of_string q)) t).
    rewrite orb_true_iff, match_here_literal, IH. split.
    + intros [(mid & post & E & Hl) | (pre & mid & post & E & Hl)].
      * now exists "", mid, post.
      * exists (String d pre), mid, post. split; [|exact Hl].
        simpl. now rewrite E.
    + intros (pre & mid & post & E & Hl).
      destruct pre as [|d' pre].
      * left. now exists mid, post.
      * right. simpl in E. inversion E; subst.
        now exists pre, mid, post.
Qed.

End Literals.

(** ** Search *)

Section SearchProperties.

Variable re_other : string -> result (string -> bool).

Lemma search_movies_literal (g : Globals) (titles : list string)
    (q : string) (limit : Z) :
  df_empty (new_df g) = false ->
  df_getitem (new_df g) "title" = Ok titles ->
  literal q = true ->
  let contains := Re.search (map Re.Lit (list_ascii_of_string q)) in
  search_movies re_other g q limit
  = SearchSuccess q (slice_to limit (filter contains titles))
      (List.length (slice_to limit (filter contains titles))).
Proof.
  intros Hne Ht Hq. unfold search_movies, re_compile.
  rewrite Hne, Ht, (parse_literal q Hq). reflexivity.
Qed.

(** X5.  Queries without pattern characters that differ in letter case only
    select the same names. *)
Lemma search_literal_case_invariant (g : Globals) (titles : list string)
    (q1 q2 : string) (limit : Z) :
  df_empty (new_df g) = false ->
  df_getitem (new_df g) "title" = Ok titles ->
  literal q1 = true ->
  literal q2 = true ->
  lower_string q1 = lower_string q2 ->
  exists movies,
    search_movies re_other g q1 limit = SearchSuccess q1 movies (List.length movies) /\
    search_movies re_other g q2 limit = SearchSuccess q2 movies (List.length movies).
Proof.
  intros Hne Ht H1 H2 Hlow.
  rewrite (search_movies_literal g titles q1 limit Hne Ht H1).
  rewrite (search_movies_literal g titles q2 limit Hne Ht H2).
  simpl.
  rewrite (filter_ext _ _ (fun t => search_lower _ _ t Hlow)).
  eexists. split; reflexivity.
Qed.

End SearchProperties.




(** C9.  The query is compiled as a pattern, and the letter case of a
    class escape is part of the pattern language: [\d] selects the names
    with a digit, [\D] the names with a character that is not a digit. *)
Theorem search_depends_on_escape_case (re_other : string -> result (string -> bool)) :
  search_movies re_other catalogue_digits "\d" 10 = SearchSuccess "\d" ["2012"] 1 /\
  search_movies re_other catalogue_digits "\D" 10 = SearchSuccess "\D" ["Up"] 1.
Proof.
  split; reflexivity.
Qed.

(** The exact match of [recommend] tells the letter cases of a name apart. *)
Lemma recommend_is_case_sensitive :
  get_recommendation catalogue_dark "Dark Knight"
  = SuccessResponse ["Up"] "Dark Knight" /\
  get_recommendation catalogue_dark "dark knight" = movie_not_found "dark knight" /\
  (forall re_other,
      search_movies re_other catalogue_dark "dark" 10
      = SearchSuccess "dark" ["Dark Knight"] 1 /\
      search_movies re_other catalogue_dark "DARK" 10
      = SearchSuccess "DARK" ["Dark Knight"] 1).
Proof.
  repeat split.
Qed.

(** * Further properties of the service *)

(** ** The catalogue listing *)

Lemma slice_to_prefix {A} (limit : Z) (l : list A) :
  exists rest, l = slice_to limit l ++ rest.
Proof.
  unfold slice_to. destruct (0 <=? limit)%Z;
    eexists; symmetry; apply firstn_skipn.
Qed.

Lemma slice_to_length {A} (limit : Z) (l : list A) :
  List.length (slice_to limit l)
  = if (0 <=? limit)%Z then Nat.min (Z.to_nat limit) (List.length l)
    else List.length l - Z.to_nat (- limit).
Proof.
  unfold slice_to. destruct (0 <=? limit)%Z; rewrite length_firstn; lia.
Qed.

(** X1.  The listing of a loaded catalogue is a prefix of the title column:
    its first [limit] names for a limit that is not negative, all but the
    last [-limit] names for a negative one; the total it reports is the
    number of records, whatever the limit. *)
Theorem get_available_movies_prefix (g : Globals) (titles : list string) (limit : Z) :
  df_empty (new_df g) = false ->
  df_getitem (new_df g) "title" = Ok titles ->
  exists movies rest,
    get_available_movies g limit = MoviesSuccess movies (df_len (new_df g)) /\
    titles = movies ++ rest /\
    List.length movies
    = if (0 <=? limit)%Z then Nat.min (Z.to_nat limit) (List.length titles)
      else List.length titles - Z.to_nat (- limit).
Proof.
  intros Hne Ht.
  destruct (slice_to_prefix limit titles) as [rest Hrest].
  exists (slice_to limit titles), rest.
  unfold get_available_movies. rewrite Hne, Ht. simpl.
  repeat split; [exact Hrest | apply slice_to_length].
Qed.

Lemma get_available_movies_prefix_witness :
  exists movies rest,
    get_available_movies catalogue_dark (-1)
    = MoviesSuccess movies (df_len (new_df catalogue_dark)) /\
    ["Dark Knight"; "Up"] = movies ++ rest /\
    List.length movies = 2 - 1.
Proof.
  apply (get_available_movies_prefix catalogue_dark ["Dark Knight"; "Up"] (-1)
           eq_refl eq_refl).
Defined.

(** X2.  After a failed load the listing and the search both answer that the
    database is not loaded, for every limit and every query. *)
Theorem failed_load_closes_the_catalogue (w : World) (path : string) (e : exn)
    (re_other : string -> result (string -> bool)) (query : string) (limit : Z) :
  Failed (load w path) e ->
  get_available_movies (fst (load w path)) limit
  = MoviesError (Text "Movie database not loaded") /\
  search_movies re_other (fst (load w path)) query limit
  = SearchError (Text "Movie database not loaded").
Proof.
  unfold Failed. intros ->. split; reflexivity.
Qed.

Lemma failed_load_closes_the_catalogue_witness :
  get_available_movies (fst (load world_without_file model_path)) 50
  = MoviesError (Text "Movie database not loaded") /\
  search_movies re_rejects (fst (load world_without_file model_path)) "dark" 10
  = SearchError (Text "Movie database not loaded").
Proof.
  apply (failed_load_closes_the_catalogue world_without_file model_path
           FileNotFoundError re_rejects "dark" 10).
  reflexivity.
Defined.

(** ** The shape of a search result *)

Lemma Subsequence_refl {A} (l : list A) : Subsequence l l.
Proof. induction l; constructor; assumption. Qed.

Lemma Subsequence_nil_l {A} (l : list A) : Subsequence [] l.
Proof. induction l; constructor; assumption. Qed.

Lemma Subsequence_filter {A} (f : A -> bool) (l : list A) :
  Subsequence (filter f l) l.
Proof.
  induction l as [|x l IH]; simpl; [constructor|].
  destruct (f x); constructor; assumption.
Qed.

Lemma Subsequence_firstn {A} (k : nat) (l1 l2 : list A) :
  Subsequence l1 l2 -> Subsequence (firstn k l1) l2.
Proof.
  intros H. revert k. induction H as [|x l1 l2 _ IH|x l1 l2 _ IH]; intros k.
  - rewrite firstn_nil. constructor.
  - destruct k; simpl; [apply Subsequence_nil_l | constructor; apply IH].
  - constructor. apply IH.
Qed.

Lemma Subsequence_slice_to {A} (limit : Z) (l1 l2 : list A) :
  Subsequence l1 l2 -> Subsequence (slice_to limit l1) l2.
Proof.
  unfold slice_to. destruct (0 <=? limit)%Z; apply Subsequence_firstn.
Qed.

(** X3.  Whatever the query, and whatever the rest of the pattern compiler
    does with it, a successful search echoes the query, counts the names
    it returns, returns names of the title column in record order, and
    returns at most [limit] of them when [limit] is not negative. *)
Theorem search_movies_result_shape (re_other : string -> result (string -> bool))
    (g : Globals) (titles : list string) (query : string) (limit : Z)
    (query' : string) (movies : list string) (count : nat) :
  df_getitem (new_df g) "title" = Ok titles ->
  search_movies re_other g query limit = SearchSuccess query' movies count ->
  query' = query /\
  count = List.length movies /\
  Subsequence movies titles /\
  ((0 <= limit)%Z -> (Z.of_nat count <= limit)%Z).
Proof.
  intros Ht. unfold search_movies. rewrite Ht.
  destruct (df_empty (new_df g)); [discriminate|].
  simpl. destruct (re_compile re_other query) as [contains|e]; simpl; [|discriminate].
  intros H. inversion H; subst. repeat split.
  - apply Subsequence_slice_to, Subsequence_filter.
  - intros Hl. rewrite slice_to_length.
    apply Z.leb_le in Hl as Hb. rewrite Hb. lia.
Qed.

Lemma search_movies_result_shape_witness :
  "p" = "p" /\
  1 = List.length ["Up"] /\
  Subsequence ["Up"] ["Dark Knight"; "Up"] /\
  ((0 <= 5)%Z -> (Z.of_nat 1 <= 5)%Z).
Proof.
  apply (search_movies_result_shape re_rejects catalogue_dark
           ["Dark Knight"; "Up"] "p" 5 "p" ["Up"] 1);
    reflexivity.
Defined.

(** ** Search with a query of ordinary characters *)

Section LiteralSearch.

Lemma slice_to_all {A} (limit : Z) (l : list A) :
  (Z.of_nat (List.length l) <= limit)%Z -> slice_to limit l = l.
Proof.
  intros H. unfold slice_to.
  assert (Hb : (0 <=? limit)%Z = true) by (apply Z.leb_le; lia).
  rewrite Hb. apply firstn_all2. lia.
Qed.

End LiteralSearch.

(** X4.  For an ASCII query without pattern characters, over a
    catalogue of ASCII names, the search is a substring search that
    ignores letter case: every name it returns is a name of the catalogue
    that contains the query up to case, and with a limit of at least the
    size of the catalogue it returns every such name. *)
Theorem search_literal_is_substring_search
    (re_other : string -> result (string -> bool))
    (g : Globals) (titles : list string) (query : string) (limit : Z) :
  df_empty (new_df g) = false ->
  df_getitem (new_df g) "title" = Ok titles ->
  ascii_only query = true ->
  Forall (fun t => ascii_only t = true) titles ->
  literal query = true ->
  exists movies,
    search_movies re_other g query limit
    = SearchSuccess query movies (List.length movies) /\
    (forall t, In t movies -> In t titles /\ contains_ignoring_case query t) /\
    ((Z.of_nat (List.length titles) <= limit)%Z ->
     forall t, In t titles -> contains_ignoring_case query t -> In t movies).
Proof.
  intros Hne Ht _ _ Hq.
  rewrite (search_movies_literal re_other g titles query limit Hne Ht Hq).
  simpl. eexists. split; [reflexivity|]. split.
  - intros t Hin. apply slice_to_incl, filter_In in Hin as [Hin Hm].
    split; [exact Hin | now apply search_literal].
  - intros Hl t Hin Hc. rewrite slice_to_all.
    + apply filter_In. split; [exact Hin | now apply search_literal].
    + pose proof (filter_length_le
                    (Re.search (map Re.Lit (list_ascii_of_string query))) titles).
      lia.
Qed.

Lemma search_literal_is_substring_search_witness :
  exists movies,
    search_movies re_rejects catalogue_dark "KNIGHT" 10
    = SearchSuccess "KNIGHT" movies (List.length movies) /\
    (forall t, In t movies ->
               In t ["Dark Knight"; "Up"] /\ contains_ignoring_case "KNIGHT" t) /\
    ((Z.of_nat (List.length ["Dark Knight"; "Up"]) <= 10)%Z ->
     forall t, In t ["Dark Knight"; "Up"] ->
               contains_ignoring_case "KNIGHT" t -> In t movies).
Proof.
  apply (search_literal_is_substring_search re_rejects catalogue_dark
           ["Dark Knight"; "Up"] "KNIGHT" 10);
    [reflexivity | reflexivity | reflexivity | | reflexivity].
  repeat constructor.
Defined.

Lemma search_literal_case_invariant_witness :
  exists movies,
    search_movies re_rejects catalogue_dark "dark" 10
    = SearchSuccess "dark" movies (List.length movies) /\
    search_movies re_rejects catalogue_dark "DARK" 10
    = SearchSuccess "DARK" movies (List.length movies).
Proof.
  apply (search_literal_case_invariant re_rejects catalogue_dark
           ["Dark Knight"; "Up"] "dark" "DARK" 10); reflexivity.
Defined.

(** ** What [recommend] returns *)

Section Ranking.

Lemma enumerate_from_fst {A} (k : nat) (l : list A) :
  map fst (enumerate_from k l) = seq k (List.length l).
Proof.
  revert k; induction l as [|x l IH]; intros k; simpl; [reflexivity|].
  now rewrite IH.
Qed.

Lemma NoDup_firstn {A} (n : nat) (l : list A) : NoDup l -> NoDup (firstn n l).
Proof.
  intros H. rewrite <- (firstn_skipn n l) in H.
  now apply NoDup_app_remove_r in H.
Qed.

Lemma NoDup_skipn {A} (n : nat) (l : list A) : NoDup l -> NoDup (skipn n l).
Proof.
  intros H. rewrite <- (firstn_skipn n l) in H.
  now apply NoDup_app_remove_l in H.
Qed.

Lemma movies_list_rows_distinct (row : list Score) :
  NoDup (map fst (movies_list row)).
Proof.
  unfold movies_list, slice. rewrite <- firstn_map, <- skipn_map.
  apply NoDup_firstn, NoDup_skipn.
  apply (Permutation_NoDup (l := map fst (enumerate row))).
  - apply Permutation_map, sorted_desc_perm.
  - unfold enumerate. rewrite enumerate_from_fst. apply seq_NoDup.
Qed.

Lemma movies_list_rows_in_range (row : list Score) (c : nat * Score) :
  In c (movies_list row) -> fst c < List.length row.
Proof.
  destruct c as [i s]. intros H. apply movies_list_In in H.
  apply nth_error_Some. simpl. congruence.
Qed.

Lemma StronglySorted_app_rel {A} (R : A -> A -> Prop) (l1 l2 : list A) (x y : A) :
  StronglySorted R (l1 ++ l2) -> In x l1 -> In y l2 -> R x y.
Proof.
  induction l1 as [|a l1 IH]; simpl; intros Hs Hx Hy; [destruct Hx|].
  inversion Hs as [|? ? Hs' Ha]; subst.
  destruct Hx as [-> | Hx].
  - rewrite Forall_forall in Ha. apply Ha, in_or_app. now right.
  - now apply IH.
Qed.

Lemma names_distinct (titles : list string) (cands : list (nat * Score)) :
  NoDup titles ->
  NoDup (map fst cands) ->
  (forall c, In c cands -> fst c < List.length titles) ->
  NoDup (map (fun c => nth (fst c) titles "") cands).
Proof.
  intros Ht. induction cands as [|c cands IH]; simpl; intros Hd Hr; [constructor|].
  inversion Hd as [|? ? Hnin Hd']; subst.
  constructor.
  - intros Hin. apply in_map_iff in Hin as (c' & E & Hc').
    apply Hnin. apply in_map_iff. exists c'. split; [|exact Hc'].
    apply (NoDup_nth titles "") in E; auto.
  - apply IH; auto.
Qed.

End Ranking.

(** X7.  The candidates that [recommend] keeps outrank what it leaves out:
    every candidate kept is ranked before every entry of the row that is
    neither kept nor the first entry of the ranking, the one dropped. *)
Theorem movies_list_outranks_the_rest (row : list Score) (c z : nat * Score) :
  In c (movies_list row) ->
  In z (enumerate row) ->
  ~ In z (movies_list row) ->
  hd_error (sorted_desc (enumerate row)) <> Some z ->
  ranks_before c z.
Proof.
  unfold movies_list, slice. simpl.
  intros Hc Hz Hout Hhd.
  apply sorted_desc_In in Hz.
  pose proof (sorted_desc_enumerate_from 0 row) as Hs.
  fold (enumerate row) in Hs.
  destruct (sorted_desc (enumerate row)) as [|h tl]; [destruct Hz|].
  simpl in *.
  destruct Hz as [-> | Hz]; [now contradiction Hhd|].
  apply StronglySorted_inv in Hs as [Hs _].
  rewrite <- (firstn_skipn 5 tl) in Hs, Hz.
  apply in_app_or in Hz as [Hz | Hz]; [contradiction|].
  exact (StronglySorted_app_rel _ _ _ _ _ Hs Hc Hz).
Qed.

Lemma movies_list_outranks_the_rest_witness :
  ranks_before (2, (5#10)%Q) (7, (1#10)%Q).
Proof.
  apply (movies_list_outranks_the_rest
           [1; 9#10; 5#10; 4#10; 3#10; 2#10; 2#10; 1#10]%Q).
  - vm_compute. tauto.
  - vm_compute. tauto.
  - vm_compute. intros H.
    repeat (destruct H as [H | H]; [discriminate H|]). exact H.
  - vm_compute. discriminate.
Defined.

(** X8.  On a snapshot whose names are pairwise distinct, [recommend] returns
    pairwise distinct names: no record is recommended twice. *)
Theorem recommend_distinct_names (g : Globals) (N : nat) (titles : list string)
    (m : Matrix) (movie : string) :
  snapshot g N titles m ->
  NoDup titles ->
  In movie titles ->
  exists names, recommend g movie = Ok names /\ NoDup names.
Proof.
  intros Hsnap Hnd Hin.
  destruct (recommend_resolved g N titles m movie Hsnap Hin)
    as (idx & row & _ & _ & Hlen & Hrec).
  eexists. split; [exact Hrec|].
  apply names_distinct; [exact Hnd | apply movies_list_rows_distinct |].
  intros c Hc. apply movies_list_rows_in_range in Hc.
  destruct Hsnap as (_ & _ & HN & _). lia.
Qed.

Lemma NoDup_abc : NoDup ["A"; "B"; "C"].
Proof.
  repeat constructor; simpl; intuition discriminate.
Qed.

Lemma recommend_distinct_names_witness :
  exists names, recommend (catalogue_abc identity3) "A" = Ok names /\ NoDup names.
Proof.
  apply (recommend_distinct_names (catalogue_abc identity3) 3 ["A"; "B"; "C"]
           identity3 "A").
  - exact snapshot_identity3.
  - exact NoDup_abc.
  - simpl. tauto.
Defined.

(** X9.  On a snapshot with pairwise distinct names, a query whose own entry
    is the first of the ranking of its row (greater than every entry
    before it, at least every entry after it) is not among its own
    recommendations, and no candidate carries its row index. *)
Theorem recommend_excludes_dominant_query (g : Globals) (N : nat)
    (titles : list string) (m : Matrix) (movie : string)
    (idx : nat) (row : list Score) (s : Score) :
  snapshot g N titles m ->
  NoDup titles ->
  first_index movie titles = Ok idx ->
  nth_error m idx = Some row ->
  nth_error row idx = Some s ->
  (forall j t, j < idx -> nth_error row j = Some t -> (t < s)%Q) ->
  (forall j t, idx < j -> nth_error row j = Some t -> (t <= s)%Q) ->
  exists names,
    recommend g movie = Ok names /\
    ~ In movie names /\
    List.length names = Nat.min 5 (N - 1).
Proof.
  intros Hsnap Hnd Hidx Hrow Hs Hbefore Hafter.
  apply first_index_Ok in Hidx as Hmovie. destruct Hmovie as [Hmovie _].
  assert (Hin : In movie titles) by (eapply nth_error_In; eauto).
  destruct (recommend_resolved g N titles m movie Hsnap Hin)
    as (idx' & row' & Hidx' & Hrow' & Hlen & Hrec).
  assert (idx' = idx) by congruence. subst idx'.
  assert (row' = row) by congruence. subst row'.
  eexists. split; [exact Hrec|]. split.
  - intros Hmem. apply in_map_iff in Hmem as (c & E & Hc).
    apply (movies_list_excludes_dominant_self row idx s Hs Hbefore Hafter c Hc).
    destruct Hsnap as (_ & _ & HN & _).
    apply movies_list_rows_in_range in Hc as Hr.
    assert (Hi : idx < List.length titles) by (apply nth_error_Some; congruence).
    apply (proj1 (NoDup_nth titles "") Hnd); [lia | exact Hi |].
    rewrite E. symmetry. now apply nth_error_nth.
  - now rewrite length_map, movies_list_length, Hlen.
Qed.

Lemma recommend_excludes_dominant_query_witness :
  exists names,
    recommend (catalogue_abc identity3) "B" = Ok names /\
    ~ In "B" names /\
    List.length names = Nat.min 5 (3 - 1).
Proof.
  apply (recommend_excludes_dominant_query (catalogue_abc identity3) 3
           ["A"; "B"; "C"] identity3 "B" 1 [0; 1; 0]%Q 1%Q).
  - exact snapshot_identity3.
  - exact NoDup_abc.
  - reflexivity.
  - reflexivity.
  - reflexivity.
  - intros j t Hj Ht. destruct j as [|j]; [|lia].
    simpl in Ht. inversion Ht. reflexivity.
  - intros j t Hj Ht.
    destruct j as [|[|[|j]]]; try lia; simpl in Ht.
    + inversion Ht. discriminate.
    + destruct j; discriminate Ht.
Defined.

(** ** The answers of [get_recommendation] *)

Lemma comprehension_Ok {A B} (f : A -> result B) (l : list A) (ys : list B) :
  comprehension f l = Ok ys ->
  List.length ys = List.length l /\
  forall y, In y ys -> exists x, In x l /\ f x = Ok y.
Proof.
  revert ys; induction l as [|x l IH]; simpl; intros ys H.
  - inversion H; subst. split; [reflexivity | intros y []].
  - destruct (f x) as [y|e] eqn:Ex; simpl in H; [|discriminate].
    destruct (comprehension f l) as [ys'|e]; simpl in H; [|discriminate].
    inversion H; subst. destruct (IH ys' eq_refl) as [Hlen Hall].
    split; [simpl; now rewrite Hlen|].
    intros y' [<- | Hy'].
    + exists x. split; [now left | exact Ex].
    + destruct (Hall y' Hy') as (x' & Hx' & E). exists x'. split; [now right | exact E].
Qed.

Lemma recommend_Ok_shape (g : Globals) (movie : string) (movies : list string) :
  recommend g movie = Ok movies ->
  List.length movies <= 5 /\
  exists titles,
    df_getitem (new_df g) "title" = Ok titles /\
    forall t, In t movies -> In t titles.
Proof.
  unfold recommend.
  destruct (df_getitem (new_df g) "title") as [titles|e]; simpl; [|discriminate].
  destruct (existsb (String.eqb movie) titles); simpl.
  - destruct (first_index movie titles) as [idx|e]; simpl; [|discriminate].
    destruct (similarity_getitem (similarity g) idx) as [row|e]; simpl; [|discriminate].
    intros H. apply comprehension_Ok in H as [Hlen Hall]. split.
    + rewrite Hlen, movies_list_length. lia.
    + exists titles. split; [reflexivity|].
      intros t Ht. destruct (Hall t Ht) as (c & _ & E).
      unfold iloc_title in E.
      destruct (nth_error titles (fst c)) eqn:En; [|discriminate].
      inversion E; subst. eapply nth_error_In; eauto.
  - intros H. inversion H; subst. split; [simpl; lia|].
    exists titles. split; [reflexivity | intros t []].
Qed.

(** X10.  Whatever the globals, a success answer of [get_recommendation] is
    given to a name of the title column only, echoes that name, and
    carries between one and five names, all of them names of the title
    column. *)
Theorem get_recommendation_success_shape (g : Globals) (movie : string)
    (movies : list string) (input_movie : string) :
  get_recommendation g movie = SuccessResponse movies input_movie ->
  input_movie = movie /\
  1 <= List.length movies <= 5 /\
  exists titles,
    df_getitem (new_df g) "title" = Ok titles /\
    In movie titles /\
    forall t, In t movies -> In t titles.
Proof.
  unfold get_recommendation.
  destruct (df_empty (new_df g) || is_None (similarity g)); [discriminate|].
  destruct (recommend g movie) as [[|t ms]|e] eqn:Er; simpl; try discriminate.
  intros H. injection H as Hm Hi. subst movies input_movie.
  apply recommend_Ok_shape in Er as Hshape.
  destruct Hshape as (Hlen & titles & Ht & Hall).
  split; [reflexivity|]. split; [split; [simpl; lia | exact Hlen]|].
  exists titles. repeat split; trivial.
  destruct (in_dec string_dec movie titles) as [Hin | Hnin]; [exact Hin|].
  rewrite (recommend_unresolved g titles movie Ht Hnin) in Er. discriminate Er.
Qed.

Lemma get_recommendation_success_shape_witness :
  "Dark Knight" = "Dark Knight" /\
  1 <= List.length ["Up"] <= 5 /\
  exists titles,
    df_getitem (new_df catalogue_dark) "title" = Ok titles /\
    In "Dark Knight" titles /\
    forall t, In t ["Up"] -> In t titles.
Proof.
  apply (get_recommendation_success_shape catalogue_dark "Dark Knight").
  reflexivity.
Defined.

Lemma get_recommendation_on_snapshot (g : Globals) (N : nat) (titles : list string)
    (m : Matrix) (movie : string) :
  snapshot g N titles m ->
  2 <= N ->
  In movie titles ->
  exists movies,
    get_recommendation g movie = SuccessResponse movies movie /\
    List.length movies = Nat.min 5 (N - 1).
Proof.
  intros Hsnap HN Hin.
  destruct (recommend_resolved g N titles m movie Hsnap Hin)
    as (idx & row & _ & _ & Hlen & Hrec).
  assert (Hl : List.length (map (fun c => nth (fst c) titles "") (movies_list row))
               = Nat.min 5 (N - 1)).
  { now rewrite length_map, movies_list_length, Hlen. }
  eexists. split; [|exact Hl].
  unfold get_recommendation.
  rewrite (snapshot_not_empty g N titles m Hsnap) by lia.
  rewrite Hrec. simpl.
  destruct (map (fun c => nth (fst c) titles "") (movies_list row)); [|reflexivity].
  cbn [List.length] in Hl. lia.
Qed.

(** X11.  On a snapshot of two records or more, every name of the catalogue is
    answered with success and [min 5 (N - 1)] names. *)
Theorem get_recommendation_succeeds (g : Globals) (N : nat) (titles : list string)
    (m : Matrix) (movie : string) :
  snapshot g N titles m ->
  2 <= N ->
  In movie titles ->
  exists movies,
    get_recommendation g movie = SuccessResponse movies movie /\
    List.length movies = Nat.min 5 (N - 1).
Proof.
  exact (get_recommendation_on_snapshot g N titles m movie).
Qed.

Lemma get_recommendation_succeeds_witness :
  exists movies,
    get_recommendation (catalogue_abc identity3) "C" = SuccessResponse movies "C" /\
    List.length movies = Nat.min 5 (3 - 1).
Proof.
  apply (get_recommendation_succeeds (catalogue_abc identity3) 3
           ["A"; "B"; "C"] identity3 "C").
  - exact snapshot_identity3.
  - lia.
  - simpl. tauto.
Defined.

(** X12.  The gate of [get_recommendation] and the status of [health_check]
    agree: a request is answered "model not loaded" exactly when the
    health operation reports "not loaded". *)
Theorem recommendation_gate_agrees_with_health (g : Globals) (movie : string) :
  get_recommendation g movie = model_not_loaded <->
  model_status (health_check g) = "not loaded".
Proof.
  unfold get_recommendation, health_check. simpl.
  rewrite <- negb_orb.
  destruct (df_empty (new_df g) || is_None (similarity g)); simpl.
  - split; reflexivity.
  - split; [|discriminate].
    destruct (recommend g movie) as [[|t ms]|e]; simpl;
      unfold model_not_loaded, movie_not_found; simpl; discriminate.
Qed.

(** X13.  A similarity matrix with fewer rows than the catalogue has records:
    a name that resolves to a row the matrix lacks is answered with the
    "Recommendation failed" error, the index error caught. *)
Theorem get_recommendation_short_matrix (g : Globals) (titles : list string)
    (m : Matrix) (movie : string) (idx : nat) :
  df_empty (new_df g) = false ->
  df_getitem (new_df g) "title" = Ok titles ->
  similarity g = Some m ->
  first_index movie titles = Ok idx ->
  List.length m <= idx ->
  recommend g movie = Raise IndexError /\
  get_recommendation g movie
  = ErrorResponse (TextWithExn "Recommendation failed: " IndexError).
Proof.
  intros Hne Ht Hs Hidx Hshort.
  assert (Hin : existsb (String.eqb movie) titles = true).
  { apply existsb_eqb_In. apply first_index_Ok in Hidx as [Hn _].
    eapply nth_error_In; eauto. }
  assert (Hrec : recommend g movie = Raise IndexError).
  { unfold recommend. rewrite Ht. simpl. rewrite Hin. simpl.
    rewrite Hidx. simpl. rewrite Hs. simpl.
    apply nth_error_None in Hshort. now rewrite Hshort. }
  split; [exact Hrec|].
  unfold get_recommendation. rewrite Hne, Hs, Hrec. reflexivity.
Qed.

Lemma get_recommendation_short_matrix_witness :
  recommend (catalogue_of ["Heat"; "Up"] [[1%Q]]) "Up" = Raise IndexError /\
  get_recommendation (catalogue_of ["Heat"; "Up"] [[1%Q]]) "Up"
  = ErrorResponse (TextWithExn "Recommendation failed: " IndexError).
Proof.
  apply (get_recommendation_short_matrix (catalogue_of ["Heat"; "Up"] [[1%Q]])
           ["Heat"; "Up"] [[1%Q]] "Up" 1);
    [reflexivity | reflexivity | reflexivity | reflexivity | simpl; lia].
Defined.

(** ** What a ready load installs *)

Lemma pd_DataFrame_rectangular (d : list (string * list string)) :
  (forall c1 c2, In c1 d -> In c2 d -> List.length (snd c1) = List.length (snd c2)) ->
  pd_DataFrame d = Ok d.
Proof.
  intros H. destruct d as [|[l c] d]; [reflexivity|]. simpl.
  replace (forallb _ d) with true; [reflexivity|].
  symmetry. apply forallb_forall. intros col Hcol.
  apply Nat.eqb_eq. apply (H col (l, c)); simpl; auto.
Qed.

Lemma pd_DataFrame_ragged (d : list (string * list string)) (c1 c2 : string * list string) :
  In c1 d -> In c2 d -> List.length (snd c1) <> List.length (snd c2) ->
  pd_DataFrame d = Raise ValueError.
Proof.
  intros H1 H2 Hne. destruct d as [|[l c] d]; [destruct H1|]. simpl.
  destruct (forallb _ d) eqn:E; [|reflexivity].
  exfalso. rewrite forallb_forall in E.
  assert (Hall : forall col, In col ((l, c) :: d) ->
                             List.length (snd col) = List.length c).
  { intros col [<- | Hcol]; [reflexivity|]. now apply Nat.eqb_eq, E. }
  apply Hne. now rewrite (Hall c1 H1), (Hall c2 H2).
Qed.

Lemma load_body_of_artifact (w : World) (path : string)
    (compressed raw : list Byte.byte) (v : option Vectorizer)
    (d : option (list (string * list string))) (s : option Matrix) :
  file_at w path = Some compressed ->
  gunzip w compressed = Some raw ->
  joblib_decode w raw = Some (mkArtifact (Some v) (Some d) (Some s)) ->
  load_body w path
  = df <- pd_DataFrame_value d ;;
    Ok (mkGlobals v df s, Text "Model loaded successfully!").
Proof.
  intros Hfile Hz Hd.
  unfold load_body, gzip_open, joblib_load. rewrite Hfile. simpl.
  rewrite Hz, Hd. reflexivity.
Qed.

(** X14.  A readable file that decodes to a dict with the three keys ends the
    load ready, with exactly the decoded vectorizer, columns and matrix as
    globals (a vectorizer or a matrix that is [None] included), when the
    columns have one length; two columns of different lengths end it
    failed with a [ValueError]. *)
Theorem load_installs_the_artifact (w : World) (path : string)
    (compressed raw : list Byte.byte) (v : option Vectorizer)
    (d : list (string * list string)) (s : option Matrix) :
  file_at w path = Some compressed ->
  gunzip w compressed = Some raw ->
  joblib_decode w raw = Some (mkArtifact (Some v) (Some (Some d)) (Some s)) ->
  ((forall c1 c2, In c1 d -> In c2 d -> List.length (snd c1) = List.length (snd c2)) ->
   Ready (load w path) (mkGlobals v d s)) /\
  (forall c1 c2, In c1 d -> In c2 d -> List.length (snd c1) <> List.length (snd c2) ->
   Failed (load w path) ValueError).
Proof.
  intros Hfile Hz Hd.
  pose proof (load_body_of_artifact w path compressed raw v (Some d) s Hfile Hz Hd) as E.
  simpl in E. split.
  - intros Hrect. unfold Ready, load.
    now rewrite E, (pd_DataFrame_rectangular d Hrect).
  - intros c1 c2 H1 H2 Hne. apply load_body_Raise.
    now rewrite E, (pd_DataFrame_ragged d c1 c2 H1 H2 Hne).
Qed.

Lemma load_installs_the_artifact_witness :
  Ready (load (world_with artifact_abc) model_path) (catalogue_abc identity3).
Proof.
  apply (proj1 (load_installs_the_artifact (world_with artifact_abc) model_path
                  [] [] (Some (OpaqueVectorizer 0)) [("title", ["A"; "B"; "C"])]
                  (Some identity3) eq_refl eq_refl eq_refl)).
  intros c1 c2 [<- | []] [<- | []]. reflexivity.
Defined.

(** ** The title typed into the page *)

Section Strip.

Lemma lstrip_empty_iff (s : string) : lstrip s = "" <-> blank s = true.
Proof.
  unfold blank. induction s as [|c s IH]; simpl; [tauto|].
  destruct (Re.is_space c); simpl; [exact IH|].
  split; discriminate.
Qed.

Lemma rstrip_empty_iff (s : string) : rstrip s = "" <-> blank s = true.
Proof.
  unfold blank. induction s as [|c s IH]; simpl; [tauto|].
  destruct (rstrip s) eqn:E.
  - destruct (Re.is_space c); simpl.
    + rewrite <- IH. tauto.
    + split; discriminate.
  - split; [discriminate|].
    intros H. apply andb_prop in H as [_ H].
    apply IH in H. discriminate H.
Qed.

Lemma blank_lstrip (s : string) : blank (lstrip s) = blank s.
Proof.
  unfold blank. induction s as [|c s IH]; simpl; [reflexivity|].
  destruct (Re.is_space c) eqn:E; simpl; [exact IH | now rewrite E].
Qed.

Lemma strip_empty_iff (s : string) : strip s = "" <-> blank s = true.
Proof.
  unfold strip. now rewrite rstrip_empty_iff, blank_lstrip.
Qed.

Lemma lstrip_head (s : string) (c : ascii) (r : string) :
  lstrip s = String c r -> Re.is_space c = false.
Proof.
  induction s as [|a s IH]; simpl; [discriminate|].
  destruct (Re.is_space a) eqn:E; [exact IH|].
  intros H. inversion H; subst. exact E.
Qed.

Lemma rstrip_head (s : string) (c : ascii) (r : string) :
  rstrip s = String c r -> exists r', s = String c r'.
Proof.
  destruct s as [|a s]; simpl; [discriminate|].
  destruct (rstrip s); [destruct (Re.is_space a)|];
    intros H; inversion H; subst; eauto.
Qed.

Lemma rstrip_last (s pre : string) (c : ascii) :
  rstrip s = (pre ++ String c "")%string -> Re.is_space c = false.
Proof.
  revert pre; induction s as [|a s IH]; intros pre; simpl.
  - destruct pre; discriminate.
  - destruct (rstrip s) as [|k kept] eqn:E.
    + destruct (Re.is_space a) eqn:Ea; [destruct pre; discriminate|].
      destruct pre as [|p pre]; simpl; intros H; inversion H; subst; [exact Ea|].
      destruct pre; discriminate.
    + destruct pre as [|p pre]; simpl; intros H; inversion H; subst.
      now apply (IH pre).
Qed.

Lemma rstrip_idempotent (s : string) : rstrip (rstrip s) = rstrip s.
Proof.
  induction s as [|a s IH]; simpl; [reflexivity|].
  destruct (rstrip s) as [|k kept] eqn:E.
  - destruct (Re.is_space a) eqn:Ea; simpl; [reflexivity|].
    now rewrite Ea.
  - change (rstrip (String a (String k kept)))
      with (match rstrip (String k kept) with
            | EmptyString => if Re.is_space a then EmptyString else String a EmptyString
            | kept' => String a kept'
            end).
    now rewrite IH.
Qed.

Lemma lstrip_fixed (s : string) :
  (forall c r, s = String c r -> Re.is_space c = false) -> lstrip s = s.
Proof.
  destruct s as [|c s]; simpl; [reflexivity|].
  intros H. now rewrite (H c s eq_refl).
Qed.

Lemma strip_head (s : string) (c : ascii) (r : string) :
  strip s = String c r -> Re.is_space c = false.
Proof.
  unfold strip. intros H.
  apply rstrip_head in H as [r' H]. now apply lstrip_head in H.
Qed.

Lemma strip_idempotent (s : string) : strip (strip s) = strip s.
Proof.
  unfold strip at 1. rewrite (lstrip_fixed (strip s)).
  - unfold strip. apply rstrip_idempotent.
  - intros c r. apply strip_head.
Qed.

Lemma lstrip_app_blank (ws x : string) :
  blank ws = true -> lstrip (ws ++ x) = lstrip x.
Proof.
  unfold blank. induction ws as [|c ws IH]; simpl; [reflexivity|].
  intros H. apply andb_prop in H as [Hc Hws]. rewrite Hc. now apply IH.
Qed.

Lemma rstrip_app_blank (x ws : string) :
  blank ws = true -> rstrip (x ++ ws) = rstrip x.
Proof.
  intros Hws. induction x as [|a x IH]; simpl.
  - now apply rstrip_empty_iff.
  - now rewrite IH.
Qed.

End Strip.

(** X16.  The name sent for recommendation: white space only in the text box
    leaves the choice to the drop-down; otherwise the text is used with
    the white space at its two ends removed, so it is not empty and
    neither begins nor ends with a white-space character. *)
Theorem movie_to_recommend_choice (manual_movie selected_movie : string) :
  (blank manual_movie = true ->
   movie_to_recommend manual_movie selected_movie = selected_movie) /\
  (blank manual_movie = false ->
   movie_to_recommend manual_movie selected_movie = strip manual_movie /\
   strip manual_movie <> "" /\
   (forall c r, strip manual_movie = String c r -> Re.is_space c = false) /\
   (forall pre c, strip manual_movie = (pre ++ String c "")%string ->
                  Re.is_space c = false)).
Proof.
  unfold movie_to_recommend. split.
  - intros H. apply strip_empty_iff in H. now rewrite H.
  - intros H.
    assert (Hne : strip manual_movie <> "").
    { intros E. apply strip_empty_iff in E. congruence. }
    repeat split.
    + destruct (strip manual_movie); [contradiction | reflexivity].
    + exact Hne.
    + apply strip_head.
    + intros pre c. unfold strip. apply rstrip_last.
Qed.

Lemma movie_to_recommend_choice_witness :
  movie_to_recommend "   " "Up" = "Up" /\
  movie_to_recommend " Heat  " "Up" = strip " Heat  ".
Proof.
  split.
  - apply (proj1 (movie_to_recommend_choice "   " "Up")). reflexivity.
  - apply (proj2 (movie_to_recommend_choice " Heat  " "Up")). reflexivity.
Defined.

Lemma strip_padded (ws1 name ws2 : string) :
  blank ws1 = true -> blank ws2 = true ->
  strip name = name -> name <> "" ->
  strip (ws1 ++ name ++ ws2) = name.
Proof.
  intros H1 H2 Hfix Hne.
  unfold strip. rewrite (lstrip_app_blank ws1 _ H1).
  assert (Hl : lstrip name = name).
  { apply lstrip_fixed. intros c r Hc. apply (strip_head name c r).
    now rewrite Hfix. }
  destruct name as [|c name]; [contradiction|].
  assert (Hc : Re.is_space c = false).
  { apply (strip_head (String c name) c name). exact Hfix. }
  simpl. rewrite Hc.
  change (rstrip ((String c name) ++ ws2) = String c name).
  rewrite (rstrip_app_blank _ ws2 H2).
  unfold strip in Hfix. now rewrite Hl in Hfix.
Qed.

Lemma movie_to_recommend_padded (ws1 name ws2 selected_movie : string) :
  blank ws1 = true -> blank ws2 = true ->
  strip name = name -> name <> "" ->
  movie_to_recommend (ws1 ++ name ++ ws2) selected_movie = name.
Proof.
  intros H1 H2 Hfix Hne. unfold movie_to_recommend.
  rewrite (strip_padded ws1 name ws2 H1 H2 Hfix Hne).
  destruct name; [contradiction | reflexivity].
Qed.

(** X17.  A name without white space at its ends, typed with white space around
    it, is sent as the name itself; and every name the page sends that did
    not come from the drop-down is a fixed point of [strip], so a record
    whose name begins or ends with white space cannot be asked for by
    typing. *)
Theorem typed_name_is_stripped (manual_movie selected_movie : string) :
  (forall ws1 name ws2,
      blank ws1 = true -> blank ws2 = true ->
      strip name = name -> name <> "" ->
      manual_movie = (ws1 ++ name ++ ws2)%string ->
      movie_to_recommend manual_movie selected_movie = name) /\
  (movie_to_recommend manual_movie selected_movie <> selected_movie ->
   strip (movie_to_recommend manual_movie selected_movie)
   = movie_to_recommend manual_movie selected_movie).
Proof.
  split.
  - intros ws1 name ws2 H1 H2 Hfix Hne ->.
    now apply movie_to_recommend_padded.
  - unfold movie_to_recommend.
    destruct (strip manual_movie) eqn:E; [contradiction|].
    intros _. rewrite <- E. apply strip_idempotent.
Qed.

Lemma typed_name_is_stripped_witness :
  movie_to_recommend "  The Dark Knight " "Up" = "The Dark Knight".
Proof.
  apply (proj1 (typed_name_is_stripped "  The Dark Knight " "Up")
           "  " "The Dark Knight" " "); try reflexivity.
  discriminate.
Defined.

(** ** From the artifact to an answer *)

Lemma df_getitem_In (df : DataFrame) (label : string) (cells : list string) :
  df_getitem df label = Ok cells -> In (label, cells) df.
Proof.
  induction df as [|[l c] df IH]; simpl; [discriminate|].
  destruct (String.eqb_spec l label) as [-> | Hne].
  - intros H. inversion H; subst. now left.
  - intros H. right. now apply IH.
Qed.

Lemma rectangular_df_len (df : DataFrame) (titles : list string) :
  (forall c1 c2, In c1 df -> In c2 df -> List.length (snd c1) = List.length (snd c2)) ->
  df_getitem df "title" = Ok titles ->
  df_len df = List.length titles.
Proof.
  intros Hrect Ht. apply df_getitem_In in Ht.
  destruct df as [|[l c] df]; [destruct Ht|]. simpl.
  apply (Hrect (l, c) ("title", titles)); [now left | exact Ht].
Qed.

(** X15.  From a readable artifact whose columns have one length, whose title
    column has [N >= 2] names and whose matrix is [N] x [N], the load
    followed by a request for a name of the catalogue is answered with
    success and [min 5 (N - 1)] names. *)
Theorem loaded_artifact_answers (w : World) (path : string)
    (compressed raw : list Byte.byte) (v : option Vectorizer)
    (d : list (string * list string)) (s : Matrix)
    (titles : list string) (movie : string) :
  file_at w path = Some compressed ->
  gunzip w compressed = Some raw ->
  joblib_decode w raw = Some (mkArtifact (Some v) (Some (Some d)) (Some (Some s))) ->
  (forall c1 c2, In c1 d -> In c2 d -> List.length (snd c1) = List.length (snd c2)) ->
  df_getitem d "title" = Ok titles ->
  2 <= List.length titles ->
  List.length s = List.length titles ->
  Forall (fun row => List.length row = List.length titles) s ->
  In movie titles ->
  exists movies,
    get_recommendation (fst (load w path)) movie = SuccessResponse movies movie /\
    List.length movies = Nat.min 5 (List.length titles - 1).
Proof.
  intros Hfile Hz Hd Hrect Ht HN Hs Hrows Hin.
  assert (Hload : load w path
                  = (mkGlobals v d (Some s), Text "Model loaded successfully!")).
  { unfold load.
    rewrite (load_body_of_artifact w path compressed raw v (Some d) (Some s) Hfile Hz Hd).
    simpl. now rewrite (pd_DataFrame_rectangular d Hrect). }
  rewrite Hload. simpl.
  apply (get_recommendation_on_snapshot _ (List.length titles) titles s movie);
    [|exact HN | exact Hin].
  unfold snapshot. simpl.
  repeat split; auto using rectangular_df_len.
Qed.

Lemma loaded_artifact_answers_witness :
  exists movies,
    get_recommendation (fst (load (world_with artifact_abc) model_path)) "B"
    = SuccessResponse movies "B" /\
    List.length movies = Nat.min 5 (List.length ["A"; "B"; "C"] - 1).
Proof.
  apply (loaded_artifact_answers (world_with artifact_abc) model_path
           [] [] (Some (OpaqueVectorizer 0)) [("title", ["A"; "B"; "C"])] identity3
           ["A"; "B"; "C"] "B" eq_refl eq_refl eq_refl).
  - intros c1 c2 [<- | []] [<- | []]. reflexivity.
  - reflexivity.
  - simpl. lia.
  - reflexivity.
  - repeat constructor.
  - simpl. tauto.
Defined.

(** X6.  The search for the empty query is the listing: whenever the listing
    succeeds, the empty search with the same limit returns the same
    names. *)
Theorem empty_search_is_the_listing (re_other : string -> result (string -> bool))
    (g : Globals) (limit : Z) (movies : list string) (total : nat) :
  get_available_movies g limit = MoviesSuccess movies total ->
  search_movies re_other g "" limit = SearchSuccess "" movies (List.length movies).
Proof.
  unfold get_available_movies.
  destruct (df_empty (new_df g)) eqn:Hne; [discriminate|].
  destruct (df_getitem (new_df g) "title") as [titles|e] eqn:Ht; simpl; [|discriminate].
  intros H. inversion H; subst.
  rewrite (search_movies_literal re_other g titles "" limit Hne Ht eq_refl).
  simpl. now rewrite (filter_all _ titles search_empty).
Qed.

Lemma empty_search_is_the_listing_witness :
  search_movies re_rejects catalogue_dark "" 1 = SearchSuccess "" ["Dark Knight"] 1.
Proof.
  apply (empty_search_is_the_listing re_rejects catalogue_dark 1 ["Dark Knight"] 2).
  reflexivity.
Defined.

(** ** The page and the service *)

Section Page.

Variable str_of_exn : exn -> string.
Variable re_other : string -> result (string -> bool).

Lemma loopback_serves (g : Globals) :
  serves str_of_exn re_other g (loopback str_of_exn re_other g).
Proof.
  unfold serves. repeat split.
Qed.

Lemma movies_of_error (m : Json) :
  StreamlitApp.movies_of (JDict [("status", JStr "error"); ("message", m)]) = JList [].
Proof. reflexivity. Qed.

End Page.

(** X18.  The page takes the API for connected and ready whenever the health
    route answers, whatever the model status in the answer: also when
    the load failed. *)
Theorem page_health_ignores_model_status (str_of_exn : exn -> string)
    (re_other : string -> result (string -> bool))
    (g : Globals) (rq : StreamlitApp.Requests) :
  serves str_of_exn re_other g rq ->
  StreamlitApp.check_api_health rq
  = (true, json_of_HealthResponse (health_check g)).
Proof.
  intros (Hhealth & _). unfold StreamlitApp.check_api_health.
  now rewrite Hhealth.
Qed.

Lemma page_health_ignores_model_status_witness :
  StreamlitApp.check_api_health (loopback no_text re_rejects not_loaded)
  = (true, json_of_HealthResponse (health_check not_loaded)).
Proof.
  apply (page_health_ignores_model_status no_text re_rejects not_loaded).
  apply loopback_serves.
Defined.

(** X19.  The list of names the page gets for its drop-down is the first
    [limit] names of the catalogue (Python slice) when the frame is
    loaded with a title column, and the empty list when the frame is
    empty: the "not loaded" error of the service reaches the page as an
    empty list. *)
Theorem page_listing (str_of_exn : exn -> string)
    (re_other : string -> result (string -> bool))
    (g : Globals) (rq : StreamlitApp.Requests) (limit : Z) :
  serves str_of_exn re_other g rq ->
  (df_empty (new_df g) = true ->
   StreamlitApp.get_available_movies rq limit = JList []) /\
  (forall titles,
      df_empty (new_df g) = false ->
      df_getitem (new_df g) "title" = Ok titles ->
      StreamlitApp.get_available_movies rq limit
      = json_of_names (slice_to limit titles)).
Proof.
  intros (_ & Hmovies & _).
  unfold StreamlitApp.get_available_movies. rewrite Hmovies.
  unfold get_available_movies. split.
  - intros ->. reflexivity.
  - intros titles -> ->. reflexivity.
Qed.

Lemma page_listing_witness :
  StreamlitApp.get_available_movies (loopback no_text re_rejects not_loaded) 200
  = JList [].
Proof.
  apply (proj1 (page_listing no_text re_rejects not_loaded
                  (loopback no_text re_rejects not_loaded) 200
                  (loopback_serves no_text re_rejects not_loaded))).
  reflexivity.
Defined.

(** X20.  The names the page gets from a search are the names the service
    found; every error answer of the service (database not loaded, query
    that does not compile as a pattern) reaches the page as an empty
    list, like a search without match. *)
Theorem page_search (str_of_exn : exn -> string)
    (re_other : string -> result (string -> bool))
    (g : Globals) (rq : StreamlitApp.Requests) (query : string) (limit : Z) :
  serves str_of_exn re_other g rq ->
  (forall query' movies count,
      search_movies re_other g query limit = SearchSuccess query' movies count ->
      StreamlitApp.search_movies rq query limit = json_of_names movies) /\
  (forall m,
      search_movies re_other g query limit = SearchError m ->
      StreamlitApp.search_movies rq query limit = JList []).
Proof.
  intros (_ & _ & Hsearch & _).
  unfold StreamlitApp.search_movies. rewrite Hsearch. split.
  - intros query' movies count ->. reflexivity.
  - intros m ->. reflexivity.
Qed.

Lemma page_search_witness :
  StreamlitApp.search_movies (loopback no_text re_rejects catalogue_dark) "(" 20
  = JList [].
Proof.
  apply (proj2 (page_search no_text re_rejects catalogue_dark
                  (loopback no_text re_rejects catalogue_dark) "(" 20
                  (loopback_serves no_text re_rejects catalogue_dark))
           (TextWithExn "Search failed: " ReError)).
  reflexivity.
Defined.

(** X21.  On a served snapshot of two records or more, a name of the catalogue
    that has no white space at its ends, typed into the page with white
    space around it, makes the page show [min 5 (N - 1)] recommended
    names. *)
Theorem page_shows_recommendations (str_of_exn : exn -> string)
    (re_other : string -> result (string -> bool))
    (g : Globals) (rq : StreamlitApp.Requests)
    (N : nat) (titles : list string) (m : Matrix)
    (ws1 name ws2 selected_movie : string) :
  serves str_of_exn re_other g rq ->
  snapshot g N titles m ->
  2 <= N ->
  In name titles ->
  strip name = name ->
  name <> "" ->
  blank ws1 = true ->
  blank ws2 = true ->
  exists movies,
    StreamlitApp.show_result
      (StreamlitApp.get_recommendations rq
         (movie_to_recommend (ws1 ++ name ++ ws2) selected_movie))
    = StreamlitApp.Recommendations (json_of_names movies) /\
    List.length movies = Nat.min 5 (N - 1).
Proof.
  intros (_ & _ & _ & Hrec) Hsnap HN Hin Hfix Hne H1 H2.
  rewrite (movie_to_recommend_padded ws1 name ws2 selected_movie H1 H2 Hfix Hne).
  destruct (get_recommendation_on_snapshot g N titles m name Hsnap HN Hin)
    as (movies & Hanswer & Hlen).
  exists movies. split; [|exact Hlen].
  unfold StreamlitApp.get_recommendations. rewrite Hrec, Hanswer. reflexivity.
Qed.

Lemma page_shows_recommendations_witness :
  exists movies,
    StreamlitApp.show_result
      (StreamlitApp.get_recommendations
         (loopback no_text re_rejects (catalogue_abc identity3))
         (movie_to_recommend (" " ++ "B" ++ "  ") "A"))
    = StreamlitApp.Recommendations (json_of_names movies) /\
    List.length movies = Nat.min 5 (3 - 1).
Proof.
  apply (page_shows_recommendations no_text re_rejects (catalogue_abc identity3)
           (loopback no_text re_rejects (catalogue_abc identity3))
           3 ["A"; "B"; "C"] identity3 " " "B" "  " "A").
  - apply loopback_serves.
  - exact snapshot_identity3.
  - lia.
  - simpl. tauto.
  - reflexivity.
  - discriminate.
  - reflexivity.
  - reflexivity.
Defined.

(** X22.  Every answer of the service to a recommendation request is a dict
    the page can show: a success answer as its list of names, an error
    answer as its message; no subscript of the page fails on it.  In
    particular the one record of a one-record snapshot is shown as "not
    found in database". *)
Theorem page_shows_every_answer (str_of_exn : exn -> string)
    (re_other : string -> result (string -> bool))
    (g : Globals) (rq : StreamlitApp.Requests) (movie : string) :
  serves str_of_exn re_other g rq ->
  (forall movies input,
      get_recommendation g movie = SuccessResponse movies input ->
      StreamlitApp.show_result (StreamlitApp.get_recommendations rq movie)
      = StreamlitApp.Recommendations (json_of_names movies)) /\
  (forall m,
      get_recommendation g movie = ErrorResponse m ->
      StreamlitApp.show_result (StreamlitApp.get_recommendations rq movie)
      = StreamlitApp.ErrorMessage (json_of_message str_of_exn m)).
Proof.
  intros (_ & _ & _ & Hrec).
  unfold StreamlitApp.get_recommendations. rewrite Hrec. split.
  - intros movies input ->. reflexivity.
  - intros m ->. reflexivity.
Qed.

Lemma page_shows_every_answer_witness :
  StreamlitApp.show_result
    (StreamlitApp.get_recommendations
       (loopback no_text re_rejects (catalogue_of ["Up"] [[1%Q]])) "Up")
  = StreamlitApp.ErrorMessage (JStr "Movie 'Up' not found in database.").
Proof.
  apply (proj2 (page_shows_every_answer no_text re_rejects
                  (catalogue_of ["Up"] [[1%Q]])
                  (loopback no_text re_rejects (catalogue_of ["Up"] [[1%Q]])) "Up"
                  (loopback_serves no_text re_rejects (catalogue_of ["Up"] [[1%Q]])))
           (Text "Movie 'Up' not found in database.")).
  reflexivity.
Defined.
